(** * A shallow embedding of krd's EnclaveClient (src/krd/enclave_client.go)

    The EnclaveClient orchestrates requests to a paired phone enclave.  Its
    mutable fields are modelled as a record threaded through a small state
    monad that also records the externally observable effects (saves of the
    pairing, transport writes, channel sends, runtime panics) as a trace.
    The collaborators of the [kr] package (encryption, key unwrapping, the
    cloud queue, JSON) are abstracted as a record of functions. *)

From Stdlib Require Import List String Bool Arith Lia.
From Stdlib Require Import Init.Byte NArith.
Import ListNotations.
Open Scope string_scope.
Open Scope list_scope.

Definition bytes := list byte.

(** Errors as they flow through the Go code.  [ErrExternal] stands for any
    other error value produced by a collaborator. *)
Inductive error : Type :=
| ErrTimeout
| ErrWaitingForKey
| ErrPairingNeverInitiated
| ErrJSON
| ErrExternal (msg : string)
| SendQueued (e : error)
| SendError (e : error)
| RecvError (e : error)
| ProtoError (e : error).

(** [err == kr.ErrWaitingForKey] *)
Definition is_ErrWaitingForKey (e : error) : bool :=
  match e with ErrWaitingForKey => true | _ => false end.

(** ** kr request / response envelopes *)
Record Profile := { SSHWirePublicKey : bytes; Email : string }.
Record MeResponse := { Me : Profile }.
Record SignRequest := { sign_Digest : bytes; sign_PublicKeyFingerprint : bytes }.
Record SignResponse := { sign_Signature : option bytes; sign_Error : option string }.
Record ListRequest := { list_Payload : bytes }.
Record ListResponse := { list_Profiles : list Profile }.

Record Request := {
  rq_RequestID : string;
  rq_MeRequest : option unit;
  rq_SignRequest : option SignRequest;
  rq_ListRequest : option ListRequest
}.

Record Response := {
  rs_RequestID : string;
  rs_MeResponse : option MeResponse;
  rs_SignResponse : option SignResponse;
  rs_ListResponse : option ListResponse;
  rs_SNSEndpointARN : option string
}.

(** A [chan *kr.Response], identified by the [make] that created it. *)
Definition chan := nat.

(** The non-nil [BluetoothDriverI] returned by [NewBluetoothDriver]. *)
Inductive BluetoothDriver := BluetoothDriverHandle.

(** ** Collaborators of the enclave client

    [UnwrapKeyIfPresent] mutates the secret through its pointer receiver, so
    it returns the updated secret.  [UnwrapKeyIfPresent_nil_panics] says
    whether that method dereferences a nil receiver. *)
Record Collaborators (PairingSecret : Type) := {
  EncryptMessage : PairingSecret -> bytes -> bytes + error;
  DecryptMessage : PairingSecret -> bytes -> option bytes * option error;
  UnwrapKeyIfPresent :
    PairingSecret -> bytes -> PairingSecret * option bytes * bool * option error;
  UnwrapKeyIfPresent_nil_panics : bool;
  SendMessage : PairingSecret -> bytes -> option error;
  SetSNSEndpointARN : PairingSecret -> string -> PairingSecret;
  DeriveUUID : PairingSecret -> string + error;
  MarshalRequest : Request -> option bytes;
  UnmarshalResponse : bytes -> option Response
}.
Arguments EncryptMessage {_}. Arguments DecryptMessage {_}.
Arguments UnwrapKeyIfPresent {_}. Arguments UnwrapKeyIfPresent_nil_panics {_}.
Arguments SendMessage {_}. Arguments SetSNSEndpointARN {_}.
Arguments DeriveUUID {_}. Arguments MarshalRequest {_}.
Arguments UnmarshalResponse {_}.

(** ** The groupcache LRU used as [requestCallbacksByRequestID]

    Most recently used entry first; [lru.New(128)]. *)
Definition lru := list (string * chan).
Definition lru_MaxEntries := 128.

Fixpoint lru_find (k : string) (c : lru) : option chan :=
  match c with
  | [] => None
  | (k', v) :: r => if String.eqb k' k then Some v else lru_find k r
  end.

Definition lru_del (k : string) (c : lru) : lru :=
  filter (fun e => negb (String.eqb (fst e) k)) c.

(** [Cache.Add]: update and move to front if present, otherwise push front
    and drop the oldest entry when over capacity. *)
Definition lru_add (k : string) (v : chan) (c : lru) : lru :=
  match lru_find k c with
  | Some _ => (k, v) :: lru_del k c
  | None =>
      let c' := (k, v) :: c in
      if Nat.ltb lru_MaxEntries (List.length c') then removelast c' else c'
  end.

(** [Cache.Get]: a hit moves the entry to the front. *)
Definition lru_get (k : string) (c : lru) : option chan * lru :=
  match lru_find k c with
  | Some v => (Some v, (k, v) :: lru_del k c)
  | None => (None, c)
  end.

(** [Cache.Remove] *)
Definition lru_remove (k : string) (c : lru) : lru := lru_del k c.

(** ** Client state and observable effects *)
Record EnclaveClient (PairingSecret : Type) := {
  pairingSecret : option PairingSecret;
  requestCallbacksByRequestID : lru;
  outgoingQueue : list bytes;
  snsEndpointARN : option string;
  cachedMe : option Profile;
  bt : option BluetoothDriver
}.
Arguments pairingSecret {_}. Arguments requestCallbacksByRequestID {_}.
Arguments outgoingQueue {_}. Arguments snsEndpointARN {_}.
Arguments cachedMe {_}. Arguments bt {_}.

Inductive Event (PairingSecret : Type) : Type :=
| EvSavePairing (p : PairingSecret)
| EvDeletePairing
| EvBtAddService (uuid : string)
| EvBtRemoveService (uuid : string)
| EvBtReaderStarted
| EvBtWrite (ciphertext : bytes)
| EvNilDeref (what : string)
| EvQueueSend (message : bytes)
| EvChanSend (ch : chan) (v : option Response)
| EvUnwrapCall (receiver : option PairingSecret).
Arguments EvSavePairing {_}. Arguments EvDeletePairing {_}.
Arguments EvBtAddService {_}. Arguments EvBtRemoveService {_}.
Arguments EvBtReaderStarted {_}. Arguments EvBtWrite {_}.
Arguments EvNilDeref {_}. Arguments EvQueueSend {_}.
Arguments EvChanSend {_}. Arguments EvUnwrapCall {_}.

(** How a computation ended: normally, by a runtime panic, or it was cut
    short because the environment (the sequence of queue polls) ran out. *)
Inductive outcome (A : Type) : Type :=
| Done (a : A)
| Panicked
| OutOfFuel.
Arguments Done {_}. Arguments Panicked {_}. Arguments OutOfFuel {_}.

Definition M (PS A : Type) : Type :=
  EnclaveClient PS -> outcome A * EnclaveClient PS * list (Event PS).

Definition ret {PS A} (a : A) : M PS A := fun s => (Done a, s, []).

Definition bind {PS A B} (m : M PS A) (k : A -> M PS B) : M PS B :=
  fun s =>
    match m s with
    | (Done a, s1, t1) => let '(o, s2, t2) := k a s1 in (o, s2, t1 ++ t2)
    | (Panicked, s1, t1) => (Panicked, s1, t1)
    | (OutOfFuel, s1, t1) => (OutOfFuel, s1, t1)
    end.

Declare Scope client_scope.
Notation "x <- m ;; k" := (bind m (fun x => k))
  (at level 61, m at next level, right associativity) : client_scope.
Notation "' p <- m ;; k" := (bind m (fun x => match x with p => k end))
  (at level 61, p pattern, m at next level, right associativity) : client_scope.
Notation "m ;; k" := (bind m (fun _ => k))
  (at level 61, right associativity) : client_scope.
Open Scope client_scope.

Definition gets {PS A} (f : EnclaveClient PS -> A) : M PS A :=
  fun s => (Done (f s), s, []).
Definition modify {PS} (f : EnclaveClient PS -> EnclaveClient PS) : M PS unit :=
  fun s => (Done tt, f s, []).
Definition emit {PS} (e : Event PS) : M PS unit := fun s => (Done tt, s, [e]).
Definition panic {PS A} : M PS A := fun s => (Panicked, s, []).
Definition out_of_fuel {PS A} : M PS A := fun s => (OutOfFuel, s, []).

Definition set_pairingSecret {PS} (p : option PS) (s : EnclaveClient PS) :=
  {| pairingSecret := p; requestCallbacksByRequestID := requestCallbacksByRequestID s;
     outgoingQueue := outgoingQueue s; snsEndpointARN := snsEndpointARN s;
     cachedMe := cachedMe s; bt := bt s |}.
Definition set_callbacks {PS} (c : lru) (s : EnclaveClient PS) :=
  {| pairingSecret := pairingSecret s; requestCallbacksByRequestID := c;
     outgoingQueue := outgoingQueue s; snsEndpointARN := snsEndpointARN s;
     cachedMe := cachedMe s; bt := bt s |}.
Definition set_outgoingQueue {PS} (q : list bytes) (s : EnclaveClient PS) :=
  {| pairingSecret := pairingSecret s; requestCallbacksByRequestID := requestCallbacksByRequestID s;
     outgoingQueue := q; snsEndpointARN := snsEndpointARN s;
     cachedMe := cachedMe s; bt := bt s |}.
Definition set_cachedMe {PS} (m : option Profile) (s : EnclaveClient PS) :=
  {| pairingSecret := pairingSecret s; requestCallbacksByRequestID := requestCallbacksByRequestID s;
     outgoingQueue := outgoingQueue s; snsEndpointARN := snsEndpointARN s;
     cachedMe := m; bt := bt s |}.
Definition set_bt {PS} (d : option BluetoothDriver) (s : EnclaveClient PS) :=
  {| pairingSecret := pairingSecret s; requestCallbacksByRequestID := requestCallbacksByRequestID s;
     outgoingQueue := outgoingQueue s; snsEndpointARN := snsEndpointARN s;
     cachedMe := cachedMe s; bt := d |}.

(** [UnpairedEnclaveClient()] *)
Definition UnpairedEnclaveClient {PS} : EnclaveClient PS :=
  {| pairingSecret := None; requestCallbacksByRequestID := [];
     outgoingQueue := []; snsEndpointARN := None; cachedMe := None; bt := None |}.

(** One iteration's view of the cloud queue in the drain loop of
    [sendRequestAndReceiveResponses]: what [pairingSecret.ReadQueue()]
    returned, and whether [time.Now().After(timeoutAt)] held afterwards. *)
Record Poll := {
  poll_ReadQueue : list bytes + error;
  poll_deadline_passed : bool
}.

(** First value sent on channel [cb] in a trace. *)
Fixpoint first_send {PS} (cb : chan) (tr : list (Event PS)) : option (option Response) :=
  match tr with
  | [] => None
  | EvChanSend ch v :: r => if Nat.eqb ch cb then Some v else first_send cb r
  | _ :: r => first_send cb r
  end.

Definition is_some {A} (o : option A) : bool :=
  match o with Some _ => true | None => false end.

Section Client.
Context {PS : Type} (kr : Collaborators PS).

Definition getPairingSecret : M PS (option PS) := gets pairingSecret.

(** [sendMessage] (lines 407-440).  The Bluetooth write runs in its own
    goroutine: a nil [client.bt] there is a nil-interface method call. *)
Definition sendMessage (message : bytes) : M PS (option error) :=
  ps <- getPairingSecret ;;
  match ps with
  | None => ret (Some ErrPairingNeverInitiated)
  | Some pairingSecret =>
      match EncryptMessage kr pairingSecret message with
      | inr err =>
          if is_ErrWaitingForKey err then
            modify (fun s =>
              if Nat.ltb (List.length (outgoingQueue s)) 128
              then set_outgoingQueue (outgoingQueue s ++ [message]) s
              else s) ;;
            ret (Some (SendQueued err))
          else ret (Some (SendError err))
      | inl ciphertext =>
          d <- gets bt ;;
          emit (match d with
                | Some _ => EvBtWrite ciphertext
                | None => EvNilDeref "client.bt"
                end) ;;
          emit (EvQueueSend message) ;;
          match SendMessage kr pairingSecret message with
          | Some err => ret (Some (SendError err))
          | None => ret None
          end
      end
  end.

(** [handleMessage] (lines 442-468). *)
Definition handleMessage (message : bytes) : M PS (option error) :=
  match UnmarshalResponse kr message with
  | None => ret (Some ErrJSON)
  | Some response =>
      (match rs_SNSEndpointARN response with
       | Some arn =>
           ps <- gets pairingSecret ;;
           match ps with
           | Some p =>
               let p' := SetSNSEndpointARN kr p arn in
               modify (set_pairingSecret (Some p')) ;;
               emit (EvSavePairing p')
           | None => ret tt
           end
       | None => ret tt
       end) ;;
      cbs <- gets requestCallbacksByRequestID ;;
      (let '(found, cbs') := lru_get (rs_RequestID response) cbs in
       match found with
       | Some requestCb =>
           modify (set_callbacks cbs') ;;
           emit (EvChanSend requestCb (Some response))
       | None => ret tt
       end) ;;
      modify (fun s => set_callbacks
                (lru_remove (rs_RequestID response) (requestCallbacksByRequestID s)) s) ;;
      ret None
  end.

(** The loop over the swapped-out queue in [handleCiphertext]: every
    message is sent, [err] keeps the last result. *)
Fixpoint sendQueuedMessages (queue : list bytes) (err : option error)
  : M PS (option error) :=
  match queue with
  | [] => ret err
  | queuedMessage :: rest =>
      e <- sendMessage queuedMessage ;;
      sendQueuedMessages rest e
  end.

(** [handleCiphertext] (lines 358-405).  The method
    [pairingSecret.UnwrapKeyIfPresent] is called before the nil check; the
    in-place update of the secret through the pointer is written back. *)
Definition handleCiphertext (ciphertext : bytes) : M PS (option error) :=
  ps <- getPairingSecret ;;
  emit (EvUnwrapCall ps) ;;
  match ps with
  | None =>
      if UnwrapKeyIfPresent_nil_panics kr then panic
      else ret (Some ErrPairingNeverInitiated)
  | Some p =>
      let '(pairingSecret, unwrappedCiphertext, didUnwrapKey, uerr) :=
        UnwrapKeyIfPresent kr p ciphertext in
      modify (set_pairingSecret (Some pairingSecret)) ;;
      match uerr with
      | Some e => ret (Some (ProtoError e))
      | None =>
          err <- (if didUnwrapKey then
                    queue <- gets outgoingQueue ;;
                    modify (set_outgoingQueue []) ;;
                    emit (EvSavePairing pairingSecret) ;;
                    sendQueuedMessages queue None
                  else ret None) ;;
          match unwrappedCiphertext with
          | None => ret err
          | Some u =>
              match DecryptMessage kr pairingSecret u with
              | (_, Some e) => ret (Some e)
              | (None, None) => ret None
              | (Some message, None) => handleMessage message
              end
          end
      end
  end.

(** The per-ciphertext loop of [receive] (lines 325-332): a
    [kr.ErrWaitingForKey] leaves [err] alone, anything else (nil included)
    overwrites it. *)
Fixpoint receiveCiphertexts (ciphertexts : list bytes) (err : option error)
  : M PS (option error) :=
  match ciphertexts with
  | [] => ret err
  | ctxt :: rest =>
      ctxtErr <- handleCiphertext ctxt ;;
      receiveCiphertexts rest
        (match ctxtErr with
         | Some e => if is_ErrWaitingForKey e then err else Some e
         | None => None
         end)
  end.

(** The [receive] closure (lines 318-334).  Its named result [numReceived]
    is never assigned, so it is always 0. *)
Definition receive (pl : Poll) : M PS (nat * option error) :=
  match poll_ReadQueue pl with
  | inr e => ret (0, Some (RecvError e))
  | inl ciphertexts =>
      err <- receiveCiphertexts ciphertexts None ;;
      ret (0, err)
  end.

(** The [for] loop (lines 336-345), one [Poll] per iteration.  Running out
    of polls means the environment was not given far enough. *)
Fixpoint drainLoop (requestID : string) (polls : list Poll) : M PS unit :=
  match polls with
  | [] => out_of_fuel
  | pl :: rest =>
      '(n, err) <- receive pl ;;
      cbs <- gets requestCallbacksByRequestID ;;
      let '(found, cbs') := lru_get requestID cbs in
      modify (set_callbacks cbs') ;;
      if is_some err || (Nat.eqb n 0 && poll_deadline_passed pl) || negb (is_some found)
      then ret tt
      else drainLoop requestID rest
  end.

(** [sendRequestAndReceiveResponses] (lines 288-356). *)
Definition sendRequestAndReceiveResponses (request : Request) (cb : chan)
    (polls : list Poll) : M PS (option error) :=
  ps <- getPairingSecret ;;
  match ps with
  | None => ret (Some ErrPairingNeverInitiated)
  | Some _ =>
      match MarshalRequest kr request with
      | None => ret (Some (ProtoError ErrJSON))
      | Some requestJson =>
          modify (fun s => set_callbacks
                    (lru_add (rq_RequestID request) cb (requestCallbacksByRequestID s)) s) ;;
          err <- sendMessage requestJson ;;
          match err with
          | Some (SendQueued _) | None =>
              drainLoop (rq_RequestID request) polls ;;
              cbs <- gets requestCallbacksByRequestID ;;
              (let '(found, cbs') := lru_get (rq_RequestID request) cbs in
               match found with
               | Some c =>
                   modify (set_callbacks cbs') ;;
                   emit (EvChanSend c None) ;;
                   modify (fun s => set_callbacks
                             (lru_remove (rq_RequestID request) (requestCallbacksByRequestID s)) s)
               | None => ret tt
               end) ;;
              ret None
          | Some e => ret (Some e)
          end
      end
  end.

(** [tryRequest] (lines 270-284): the caller races the first value sent on
    [cb] against [time.After(timeout)].  Times are milliseconds after the
    call; [t_deliver] is when the worker's first send on [cb] happens.  The
    result carries the time at which the call returns.  The worker's own
    error is only logged. *)
Definition tryRequest (request : Request) (cb : chan) (timeout t_deliver : N)
    (polls : list Poll) : M PS (option Response * option error * N) :=
  fun s =>
    let '(o, s', tr) := sendRequestAndReceiveResponses request cb polls s in
    match o with
    | Panicked => (Panicked, s', tr)
    | _ =>
        match first_send cb tr with
        | Some response =>
            if N.ltb t_deliver timeout
            then (Done (response, None, t_deliver), s', tr)
            else (Done (None, Some ErrTimeout, timeout), s', tr)
        | None =>
            match o with
            | OutOfFuel => (OutOfFuel, s', tr)
            | _ => (Done (None, Some ErrTimeout, timeout), s', tr)
            end
        end
    end.

Definition with_MeRequest (r : Request) : Request :=
  {| rq_RequestID := rq_RequestID r; rq_MeRequest := Some tt;
     rq_SignRequest := rq_SignRequest r; rq_ListRequest := rq_ListRequest r |}.
Definition with_SignRequest (r : Request) (sr : SignRequest) : Request :=
  {| rq_RequestID := rq_RequestID r; rq_MeRequest := rq_MeRequest r;
     rq_SignRequest := Some sr; rq_ListRequest := rq_ListRequest r |}.
Definition with_ListRequest (r : Request) (lr : ListRequest) : Request :=
  {| rq_RequestID := rq_RequestID r; rq_MeRequest := rq_MeRequest r;
     rq_SignRequest := rq_SignRequest r; rq_ListRequest := Some lr |}.

(** [RequestMe] (lines 211-232); [newRequest] is the result of
    [kr.NewRequest()].  The last component is the return time. *)
Definition RequestMe (newRequest : Request + error) (cb : chan) (t_deliver : N)
    (polls : list Poll) : M PS (option MeResponse * option error * N) :=
  match newRequest with
  | inr e => ret (None, Some e, 0%N)
  | inl meRequest =>
      '(response, err, elapsed) <- tryRequest (with_MeRequest meRequest) cb 20000%N t_deliver polls ;;
      match err with
      | Some e => ret (None, Some e, elapsed)
      | None =>
          match response with
          | None => ret (None, None, elapsed)
          | Some r =>
              match rs_MeResponse r with
              | Some meResponse =>
                  modify (set_cachedMe (Some (Me meResponse))) ;;
                  ret (Some meResponse, None, elapsed)
              | None => ret (None, None, elapsed)
              end
          end
      end
  end.

(** [RequestSignature] (lines 233-251). *)
Definition RequestSignature (signRequest : SignRequest) (newRequest : Request + error)
    (cb : chan) (t_deliver : N) (polls : list Poll)
  : M PS (option SignResponse * option error * N) :=
  match newRequest with
  | inr e => ret (None, Some e, 0%N)
  | inl request =>
      '(response, err, elapsed) <-
        tryRequest (with_SignRequest request signRequest) cb 15000%N t_deliver polls ;;
      match err with
      | Some e => ret (None, Some e, elapsed)
      | None =>
          match response with
          | Some r => ret (rs_SignResponse r, None, elapsed)
          | None => ret (None, None, elapsed)
          end
      end
  end.

(** [RequestList] (lines 252-268). *)
Definition RequestList (listRequest : ListRequest) (newRequest : Request + error)
    (cb : chan) (t_deliver : N) (polls : list Poll)
  : M PS (option ListResponse * option error * N) :=
  match newRequest with
  | inr e => ret (None, Some e, 0%N)
  | inl request =>
      '(response, err, elapsed) <-
        tryRequest (with_ListRequest request listRequest) cb 5000%N t_deliver polls ;;
      match err with
      | Some e => ret (None, Some e, elapsed)
      | None =>
          match response with
          | Some r => ret (rs_ListResponse r, None, elapsed)
          | None => ret (None, None, elapsed)
          end
      end
  end.

(** [deactivatePairing] (lines 119-132); Bluetooth errors are only logged. *)
Definition deactivatePairing : M PS (option error) :=
  s <- gets (fun s => s) ;;
  match bt s, pairingSecret s with
  | Some _, Some p =>
      match DeriveUUID kr p with
      | inl oldBtUUID => emit (EvBtRemoveService oldBtUUID) ;; ret None
      | inr _ => ret None
      end
  | _, _ => ret None
  end.

(** [activatePairing] (lines 134-151).  An [AddService] failure is only
    logged by every caller, so the driver call is recorded as an event. *)
Definition activatePairing : M PS (option error) :=
  s <- gets (fun s => s) ;;
  match bt s, pairingSecret s with
  | Some _, Some p =>
      match DeriveUUID kr p with
      | inl btUUID => emit (EvBtAddService btUUID) ;; ret None
      | inr uuidErr => ret (Some uuidErr)
      end
  | _, _ => ret None
  end.

(** [generatePairing] (lines 98-117); [generated] is the result of
    [kr.GeneratePairingSecretAndCreateQueues()]. *)
Definition generatePairing (generated : PS + error) : M PS (option error) :=
  deactivatePairing ;;
  emit EvDeletePairing ;;
  match generated with
  | inr err => ret (Some err)
  | inl pairingSecret =>
      modify (set_pairingSecret (Some pairingSecret)) ;;
      modify (set_outgoingQueue []) ;;
      emit (EvSavePairing pairingSecret) ;;
      ret None
  end.

(** [Pair] (lines 76-88).  Its [err] result is never assigned; the final
    [*ec.pairingSecret] dereferences whatever pointer is stored. *)
Definition Pair (generated : PS + error) : M PS PS :=
  modify (set_cachedMe None) ;;
  deactivatePairing ;;
  generatePairing generated ;;
  activatePairing ;;
  ps <- gets pairingSecret ;;
  match ps with
  | Some p => ret p
  | None => emit (EvNilDeref "ec.pairingSecret") ;; panic
  end.

(** [Start] (lines 157-189); [loaded] is what [kr.LoadPairing()] returned
    without error and [btDriver] the result of [NewBluetoothDriver()].  The
    [bt, err := NewBluetoothDriver()] at the top level of the body assigns
    the named result [err], which nothing assigns afterwards, so [Start]
    returns the driver's error.  The Bluetooth read goroutine is recorded as
    started; the initial [RequestMe] takes its own request, channel and
    environment, and its results are dropped. *)
Definition Start (loaded : option PS) (btDriver : BluetoothDriver + error)
    (newRequest : Request + error) (cb : chan) (t_deliver : N) (polls : list Poll)
  : M PS (option error) :=
  (match loaded with
   | Some p => modify (set_pairingSecret (Some p))
   | None => ret tt
   end) ;;
  err <- (match btDriver with
          | inr e => ret (Some e)
          | inl d => modify (set_bt (Some d)) ;; emit EvBtReaderStarted ;; ret None
          end) ;;
  activatePairing ;;
  ps <- getPairingSecret ;;
  match ps with
  | Some _ => RequestMe newRequest cb t_deliver polls ;; ret err
  | None => ret err
  end.

End Client.

(** ** A concrete instance of the collaborators, for the scenarios below

    Secrets are numbers: 0 is a secret still waiting for its key, anything
    else has the key.  A ciphertext starting with [xff] carries the key;
    [[x00]] fails to decrypt; the plaintext [[x03]] is the response to
    request "r1". *)
Module Scenario.

Definition me_r1 : MeResponse :=
  {| Me := {| SSHWirePublicKey := [x01]; Email := "me@example.com" |} |}.

Definition response_r1 : Response :=
  {| rs_RequestID := "r1"; rs_MeResponse := Some me_r1; rs_SignResponse := None;
     rs_ListResponse := None; rs_SNSEndpointARN := None |}.

Definition request_r1 : Request :=
  {| rq_RequestID := "r1"; rq_MeRequest := None; rq_SignRequest := None;
     rq_ListRequest := None |}.

Definition response_arn : Response :=
  {| rs_RequestID := "r2"; rs_MeResponse := None; rs_SignResponse := None;
     rs_ListResponse := None; rs_SNSEndpointARN := Some "arn:aws:sns:endpoint/r2" |}.

Definition sign_request : SignRequest :=
  {| sign_Digest := [x0a]; sign_PublicKeyFingerprint := [x0b] |}.
Definition list_request : ListRequest := {| list_Payload := [] |}.

Definition kr : Collaborators nat := {|
  EncryptMessage := fun p m => if Nat.eqb p 0 then inr ErrWaitingForKey else inl (x7f :: m);
  DecryptMessage := fun _ c =>
    match c with
    | [x00] => (None, Some (ErrExternal "decrypt"))
    | _ => (Some c, None)
    end;
  UnwrapKeyIfPresent := fun p c =>
    match c with
    | xff :: [] => (1, None, true, None)
    | xff :: rest => (1, Some rest, true, None)
    | _ => (p, Some c, false, None)
    end;
  UnwrapKeyIfPresent_nil_panics := true;
  SendMessage := fun _ m => match m with [x09] => Some (ErrExternal "sqs") | _ => None end;
  SetSNSEndpointARN := fun p _ => p + 10;
  DeriveUUID := fun _ => inl "bt-uuid";
  MarshalRequest := fun _ => Some [x02];
  UnmarshalResponse := fun b =>
    match b with
    | [x03] => Some response_r1
    | [x04] => Some response_arn
    | _ => None
    end
|}.

(** A paired client with its key and a Bluetooth driver. *)
Definition paired : EnclaveClient nat :=
  {| pairingSecret := Some 1; requestCallbacksByRequestID := [];
     outgoingQueue := []; snsEndpointARN := None; cachedMe := None;
     bt := Some BluetoothDriverHandle |}.

(** A paired client whose Bluetooth driver failed to start. *)
Definition paired_no_bt : EnclaveClient nat := set_bt None paired.

(** A client whose pairing is still waiting for the key, with three
    queued messages. *)
Definition key_pending : EnclaveClient nat :=
  {| pairingSecret := Some 0; requestCallbacksByRequestID := [];
     outgoingQueue := [[x05]; [x09]; [x06]]; snsEndpointARN := None;
     cachedMe := None; bt := Some BluetoothDriverHandle |}.

(** [paired] with request "r1" waiting on channel 1. *)
Definition waiting_r1 : EnclaveClient nat := set_callbacks [("r1", 1)] paired.

Definition recv_failure : Poll :=
  {| poll_ReadQueue := inr (ErrExternal "sqs receive"); poll_deadline_passed := false |}.
Definition answer_batch : Poll :=
  {| poll_ReadQueue := inl [[x03]]; poll_deadline_passed := false |}.

(** The same collaborators with the cloud queue unreachable: every
    [SendMessage] fails. *)
Definition kr_offline : Collaborators nat := {|
  EncryptMessage := EncryptMessage kr;
  DecryptMessage := DecryptMessage kr;
  UnwrapKeyIfPresent := UnwrapKeyIfPresent kr;
  UnwrapKeyIfPresent_nil_panics := UnwrapKeyIfPresent_nil_panics kr;
  SendMessage := fun _ _ => Some (ErrExternal "sqs");
  SetSNSEndpointARN := SetSNSEndpointARN kr;
  DeriveUUID := DeriveUUID kr;
  MarshalRequest := MarshalRequest kr;
  UnmarshalResponse := UnmarshalResponse kr
|}.

(** A correlator filled to capacity: 128 one-character identifiers, the
    oldest last. *)
Definition full_cache : lru :=
  map (fun n => (String (Ascii.ascii_of_nat n) EmptyString, n)) (seq 0 128).

Definition request_r2 : Request :=
  {| rq_RequestID := "r2"; rq_MeRequest := None; rq_SignRequest := None;
     rq_ListRequest := None |}.

(** Batches holding a corrupt ciphertext and an unrelated response: the
    corrupt one first, or last. *)
Definition error_first_batch : Poll :=
  {| poll_ReadQueue := inl [[x00]; [x04]]; poll_deadline_passed := false |}.
Definition error_last_batch : Poll :=
  {| poll_ReadQueue := inl [[x04]; [x00]]; poll_deadline_passed := false |}.

(** The last poll of a wait: its deadline has passed, and it carries a
    response for another request. *)
Definition late_other_batch : Poll :=
  {| poll_ReadQueue := inl [[x04]]; poll_deadline_passed := true |}.

End Scenario.

(** ** Definitions used by the statements below *)

Definition outcome_map {A B} (f : A -> B) (o : outcome A) : outcome B :=
  match o with
  | Done a => Done (f a)
  | Panicked => Panicked
  | OutOfFuel => OutOfFuel
  end.

(** Handling each ciphertext of a batch in order, results discarded. *)
Fixpoint handleEach {PS} (kr : Collaborators PS) (ciphertexts : list bytes) : M PS unit :=
  match ciphertexts with
  | [] => ret tt
  | c :: rest => handleCiphertext kr c ;; handleEach kr rest
  end.

(** Number of values sent on any channel in a trace. *)
Definition chan_sends {PS} (tr : list (Event PS)) : nat :=
  List.length (filter (fun e => match e with EvChanSend _ _ => true | _ => false end) tr).

(** The endpoint-identifier step of [handleMessage], on its own. *)
Definition applySNSEndpointARN {PS} (kr : Collaborators PS) (response : Response)
    (s : EnclaveClient PS) : EnclaveClient PS * list (Event PS) :=
  match rs_SNSEndpointARN response, pairingSecret s with
  | Some arn, Some p =>
      let p' := SetSNSEndpointARN kr p arn in
      (set_pairingSecret (Some p') s, [EvSavePairing p'])
  | _, _ => (s, [])
  end.

(** The worker of a request runs without panicking and the first value it
    sends on [cb] is [v]. *)
Definition worker_delivers_first {PS} (kr : Collaborators PS) (request : Request)
    (cb : chan) (polls : list Poll) (s : EnclaveClient PS) (v : option Response) : Prop :=
  let '(o, _, tr) := sendRequestAndReceiveResponses kr request cb polls s in
  o <> Panicked /\ first_send cb tr = Some v.

(** The effects of sending each message through [sendMessage] with the
    secret [p] set, [d] being the client's Bluetooth driver: a message that
    encrypts is written to Bluetooth (or hits the nil driver) and then sent
    to the cloud queue; one that does not encrypt has no effect here. *)
Definition resend_trace {PS} (kr : Collaborators PS) (p : PS) (d : option BluetoothDriver)
    (queue : list bytes) : list (Event PS) :=
  flat_map (fun m => match EncryptMessage kr p m with
                     | inl c => [match d with
                                 | Some _ => EvBtWrite c
                                 | None => EvNilDeref "client.bt"
                                 end; EvQueueSend m]
                     | inr _ => []
                     end) queue.

(** Calling [sendMessage] on each message in order, results discarded. *)
Fixpoint sendEach {PS} (kr : Collaborators PS) (queue : list bytes) : M PS unit :=
  match queue with
  | [] => ret tt
  | m :: rest => sendMessage kr m ;; sendEach kr rest
  end.

(** The client right after the swap in [handleCiphertext]: the updated
    secret stored and the outgoing queue emptied. *)
Definition flushed {PS} (p' : PS) (s : EnclaveClient PS) : EnclaveClient PS :=
  set_outgoingQueue [] (set_pairingSecret (Some p') s).

(** Duplicate-free check on identifiers. *)
Fixpoint nodupb (l : list string) : bool :=
  match l with
  | [] => true
  | x :: r => negb (existsb (String.eqb x) r) && nodupb r
  end.

(** [Stop] (lines 152-155). *)
Definition Stop {PS} (kr : Collaborators PS) : M PS (option error) :=
  deactivatePairing kr ;; ret None.

(** A computation keeps the state predicate [P] whatever it returns. *)
Definition preserves {PS A} (P : EnclaveClient PS -> Prop) (m : M PS A) : Prop :=
  forall s o s' tr, P s -> m s = (o, s', tr) -> P s'.

(** The outgoing queue holds at most 128 messages. *)
Definition queue_bounded {PS} (s : EnclaveClient PS) : Prop :=
  List.length (outgoingQueue s) <= 128.

(** No request identifier has two entries in the correlator, and every
    entry is one of [c0]. *)
Definition callbacks_within {PS} (c0 : lru) (s : EnclaveClient PS) : Prop :=
  NoDup (map fst (requestCallbacksByRequestID s)) /\
  incl (requestCallbacksByRequestID s) c0.

(** * Properties *)

(** ** The LRU correlator *)

Lemma lru_find_del (k : string) (c : lru) : lru_find k (lru_del k c) = None.
Proof.
  induction c as [|[k' v] r IH]; cbn; auto.
  destruct (String.eqb k' k) eqn:E; cbn; auto. rewrite E. exact IH.
Qed.

Lemma lru_del_absent (k : string) (c : lru) : lru_find k c = None -> lru_del k c = c.
Proof.
  induction c as [|[k' v] r IH]; cbn; auto.
  destruct (String.eqb k' k); cbn; [discriminate|].
  intros H. f_equal. auto.
Qed.

Lemma lru_del_idem (k : string) (c : lru) : lru_del k (lru_del k c) = lru_del k c.
Proof. apply lru_del_absent, lru_find_del. Qed.

Lemma lru_find_in (k : string) (c : lru) : lru_find k c = None <-> ~ In k (map fst c).
Proof.
  induction c as [|[k' v] r IH]; cbn; [tauto|].
  destruct (String.eqb k' k) eqn:E.
  - apply String.eqb_eq in E. subst. split; [discriminate|]. intros H. exfalso. auto.
  - apply String.eqb_neq in E. rewrite IH. split; intros H; [intros [H'|H']|]; auto.
Qed.

Lemma lru_del_NoDup (k : string) (c : lru) :
  NoDup (map fst c) -> NoDup (map fst (lru_del k c)).
Proof.
  induction c as [|[k' v] r IH]; cbn; auto.
  intros H. inversion H as [|x l Hnin Hnd]; subst.
  destruct (String.eqb k' k); cbn; auto.
  constructor; auto. intros Hin. apply Hnin.
  unfold lru_del in Hin. apply in_map_iff in Hin as [[a b] [Ha Hin]].
  apply filter_In in Hin as [Hin _].
  apply in_map_iff. exists (a, b). split; [exact Ha | exact Hin].
Qed.

Lemma in_removelast_in {A} (l : list A) (x : A) : In x (removelast l) -> In x l.
Proof.
  induction l as [|a r IH]; cbn; auto.
  destruct r as [|b r']; [intros []|]. intros [H|H]; [left; auto|right; auto].
Qed.

Lemma removelast_NoDup (c : lru) : NoDup (map fst c) -> NoDup (map fst (removelast c)).
Proof.
  induction c as [|e r IH]; [auto|].
  destruct r as [|e' r']; [intros; constructor|].
  intros H. inversion H as [|x l Hnin Hnd]; subst.
  replace (removelast (e :: e' :: r')) with (e :: removelast (e' :: r')) by reflexivity.
  rewrite map_cons. constructor; auto.
  intros Hin. apply Hnin. apply in_map_iff in Hin as [y [Hy Hin]].
  change (In (fst e) (map fst (e' :: r'))).
  apply in_map_iff. exists y. split; auto. apply in_removelast_in. exact Hin.
Qed.

Lemma lru_add_NoDup (k : string) (v : chan) (c : lru) :
  NoDup (map fst c) -> NoDup (map fst (lru_add k v c)).
Proof.
  intros H. unfold lru_add. destruct (lru_find k c) eqn:E.
  - cbn. constructor.
    + apply lru_find_in, lru_find_del.
    + apply lru_del_NoDup, H.
  - assert (Hc : NoDup (map fst ((k, v) :: c))).
    { cbn. constructor; auto. apply lru_find_in, E. }
    destruct (Nat.ltb lru_MaxEntries (List.length ((k, v) :: c))); auto.
    apply removelast_NoDup, Hc.
Qed.

Ltac run :=
  unfold bind, ret, gets, modify, emit, panic, out_of_fuel, getPairingSecret in *;
  cbn in *.

Section Proofs.
Context {PS : Type} (kr : Collaborators PS).

(** Every path of [sendMessage] keeps the outgoing queue within 128. *)
Lemma sendMessage_queue_bound (message : bytes) (s : EnclaveClient PS) :
  List.length (outgoingQueue s) <= 128 ->
  forall o s' tr, sendMessage kr message s = (o, s', tr) ->
  List.length (outgoingQueue s') <= 128.
Proof.
  intros Hlen o s' tr Hrun. unfold sendMessage in Hrun. run.
  destruct (pairingSecret s) as [p|]; run.
  - destruct (EncryptMessage kr p message) as [c|e]; run.
    + destruct (bt s); run;
        destruct (SendMessage kr p message); run; injection Hrun; intros; subst; lia.
    + destruct (is_ErrWaitingForKey e); run.
      * injection Hrun; intros; subst.
        destruct (Nat.leb (List.length (outgoingQueue s)) 127) eqn:Hlt; cbn.
        -- apply Nat.leb_le in Hlt. rewrite length_app. cbn. lia.
        -- lia.
      * injection Hrun; intros; subst; lia.
  - injection Hrun; intros; subst; lia.
Qed.

(** C6: a send that meets [ErrWaitingForKey] appends the message only while
    the queue holds fewer than 128 entries (the new message is dropped
    otherwise), returns [SendQueued] rather than a hard error, and no call
    of [sendMessage] takes the queue past 128. *)
Theorem sendMessage_waiting_for_key_queues
    (message : bytes) (s : EnclaveClient PS) (p : PS) (e : error)
    (Hps : pairingSecret s = Some p)
    (Henc : EncryptMessage kr p message = inr e)
    (Hwait : is_ErrWaitingForKey e = true)
    (Hlen : List.length (outgoingQueue s) <= 128) :
  (exists s',
     sendMessage kr message s = (Done (Some (SendQueued e)), s', []) /\
     outgoingQueue s' =
       (if Nat.ltb (List.length (outgoingQueue s)) 128
        then outgoingQueue s ++ [message] else outgoingQueue s) /\
     pairingSecret s' = pairingSecret s /\
     requestCallbacksByRequestID s' = requestCallbacksByRequestID s) /\
  (forall m o s' tr, sendMessage kr m s = (o, s', tr) ->
     List.length (outgoingQueue s') <= 128).
Proof.
  split.
  - unfold sendMessage. run. rewrite Hps. run. rewrite Henc, Hwait. run.
    eexists. split; [reflexivity|].
    destruct (Nat.leb (List.length (outgoingQueue s)) 127); cbn; auto.
  - intros m. apply sendMessage_queue_bound. exact Hlen.
Qed.

(** [handleMessage] on a well-formed envelope: the endpoint update, then
    at most one delivery, and the entry is gone afterwards. *)
Lemma handleMessage_parsed (message : bytes) (response : Response) (s : EnclaveClient PS) :
  UnmarshalResponse kr message = Some response ->
  handleMessage kr message s =
    (Done None,
     set_callbacks (lru_remove (rs_RequestID response) (requestCallbacksByRequestID s))
       (fst (applySNSEndpointARN kr response s)),
     snd (applySNSEndpointARN kr response s) ++
     match lru_find (rs_RequestID response) (requestCallbacksByRequestID s) with
     | Some ch => [EvChanSend ch (Some response)]
     | None => []
     end).
Proof.
  intros Hparse. unfold handleMessage, applySNSEndpointARN. rewrite Hparse.
  unfold bind, ret, gets, modify, emit. unfold lru_get.
  destruct (rs_SNSEndpointARN response) as [arn|];
    [destruct (pairingSecret s) as [p|]|]; simpl;
    destruct (lru_find (rs_RequestID response) (requestCallbacksByRequestID s)) eqn:E; simpl.
  all: try rewrite String.eqb_refl; cbn [negb]; unfold lru_remove;
    try rewrite lru_del_idem; reflexivity.
Qed.

Lemma applySNS_callbacks (response : Response) (s : EnclaveClient PS) :
  requestCallbacksByRequestID (fst (applySNSEndpointARN kr response s)) =
  requestCallbacksByRequestID s.
Proof.
  unfold applySNSEndpointARN.
  destruct (rs_SNSEndpointARN response), (pairingSecret s); reflexivity.
Qed.

Lemma applySNS_queue (response : Response) (s : EnclaveClient PS) :
  outgoingQueue (fst (applySNSEndpointARN kr response s)) = outgoingQueue s.
Proof.
  unfold applySNSEndpointARN.
  destruct (rs_SNSEndpointARN response), (pairingSecret s); reflexivity.
Qed.

Lemma applySNS_trace (response : Response) (s : EnclaveClient PS) (e : Event PS) :
  In e (snd (applySNSEndpointARN kr response s)) -> exists p, e = EvSavePairing p.
Proof.
  unfold applySNSEndpointARN.
  destruct (rs_SNSEndpointARN response), (pairingSecret s); cbn; try tauto.
  intros [H|[]]. eexists; symmetry; exact H.
Qed.

Lemma chan_sends_app (t1 t2 : list (Event PS)) :
  chan_sends (t1 ++ t2) = chan_sends t1 + chan_sends t2.
Proof. unfold chan_sends. rewrite filter_app, length_app. reflexivity. Qed.

Lemma chan_sends_applySNS (response : Response) (s : EnclaveClient PS) :
  chan_sends (snd (applySNSEndpointARN kr response s)) = 0.
Proof.
  unfold applySNSEndpointARN.
  destruct (rs_SNSEndpointARN response), (pairingSecret s); reflexivity.
Qed.

(** C8: the endpoint identifier carried by a response is applied to the
    active pairing secret and saved, whatever the correlator holds. *)
Theorem handleMessage_applies_SNSEndpointARN
    (message : bytes) (response : Response) (arn : string) (p : PS)
    (s : EnclaveClient PS)
    (Hparse : UnmarshalResponse kr message = Some response)
    (Harn : rs_SNSEndpointARN response = Some arn)
    (Hps : pairingSecret s = Some p) :
  exists s' tr,
    handleMessage kr message s = (Done None, s', tr) /\
    pairingSecret s' = Some (SetSNSEndpointARN kr p arn) /\
    In (EvSavePairing (SetSNSEndpointARN kr p arn)) tr.
Proof.
  rewrite (handleMessage_parsed _ _ _ Hparse).
  unfold applySNSEndpointARN. rewrite Harn, Hps.
  do 2 eexists. split; [reflexivity|]. split; [reflexivity|]. left; reflexivity.
Qed.

(** C7: a response for an identifier with no entry changes neither the
    correlator nor the queue and reaches no channel; a delivery reaches at
    most the one channel registered under its identifier and removes the
    entry, so a second delivery for that identifier reaches no waiter; the
    correlator never holds two entries for one identifier. *)
Theorem handleMessage_delivery_idempotent
    (message : bytes) (response : Response) (s : EnclaveClient PS)
    (Hparse : UnmarshalResponse kr message = Some response) :
  (lru_find (rs_RequestID response) (requestCallbacksByRequestID s) = None ->
   exists s' tr,
     handleMessage kr message s = (Done None, s', tr) /\
     requestCallbacksByRequestID s' = requestCallbacksByRequestID s /\
     outgoingQueue s' = outgoingQueue s /\
     chan_sends tr = 0) /\
  (exists s1 tr1,
     handleMessage kr message s = (Done None, s1, tr1) /\
     chan_sends tr1 <= 1 /\
     (forall ch v, In (EvChanSend ch v) tr1 ->
        lru_find (rs_RequestID response) (requestCallbacksByRequestID s) = Some ch /\
        v = Some response) /\
     lru_find (rs_RequestID response) (requestCallbacksByRequestID s1) = None /\
     (NoDup (map fst (requestCallbacksByRequestID s)) ->
      NoDup (map fst (requestCallbacksByRequestID s1))) /\
     (forall message2 response2,
        UnmarshalResponse kr message2 = Some response2 ->
        rs_RequestID response2 = rs_RequestID response ->
        exists s2 tr2,
          handleMessage kr message2 s1 = (Done None, s2, tr2) /\
          chan_sends tr2 = 0 /\
          requestCallbacksByRequestID s2 = requestCallbacksByRequestID s1)) /\
  (forall k v c, NoDup (map fst c) -> NoDup (map fst (lru_add k v c))).
Proof.
  rewrite (handleMessage_parsed _ _ _ Hparse).
  split; [|split].
  - intros Hnone. rewrite Hnone. do 2 eexists. split; [reflexivity|].
    cbn [requestCallbacksByRequestID outgoingQueue set_callbacks].
    rewrite ?applySNS_callbacks, ?applySNS_queue. unfold lru_remove.
    rewrite lru_del_absent by exact Hnone.
    rewrite app_nil_r, chan_sends_applySNS. auto.
  - do 2 eexists. split; [reflexivity|]. cbn [requestCallbacksByRequestID set_callbacks].
    rewrite ?applySNS_callbacks.
    pose proof (lru_find_del (rs_RequestID response) (requestCallbacksByRequestID s))
      as Hfind.
    change (lru_del (rs_RequestID response) (requestCallbacksByRequestID s)) with
      (lru_remove (rs_RequestID response) (requestCallbacksByRequestID s)) in Hfind.
    split; [|split; [|split; [exact Hfind|split]]].
    + rewrite chan_sends_app, chan_sends_applySNS.
      destruct (lru_find (rs_RequestID response) (requestCallbacksByRequestID s));
        unfold chan_sends; cbn; lia.
    + intros ch v Hin. apply in_app_or in Hin as [Hin|Hin].
      * apply applySNS_trace in Hin as [p' Hp]. discriminate.
      * destruct (lru_find (rs_RequestID response) (requestCallbacksByRequestID s))
          as [c|]; [|destruct Hin].
        destruct Hin as [Hin|[]]. injection Hin; intros; subst; auto.
    + apply lru_del_NoDup.
    + intros message2 response2 Hparse2 Hid.
      rewrite (handleMessage_parsed _ _ _ Hparse2).
      do 2 eexists. split; [reflexivity|].
      cbn [requestCallbacksByRequestID set_callbacks].
      rewrite ?applySNS_callbacks. cbn [requestCallbacksByRequestID set_callbacks].
      rewrite Hid, Hfind, app_nil_r, chan_sends_applySNS. split; [reflexivity|].
      unfold lru_remove. rewrite lru_del_idem. reflexivity.
  - apply lru_add_NoDup.
Qed.

(** C1 (as the code does it): with no pairing secret the worker returns at
    once without registering a callback, touching the state or the network,
    but nothing is sent on the channel, so each typed operation waits for
    its whole timeout (20 s, 15 s, 5 s) and fails with [ErrTimeout]. *)
Theorem request_unpaired_waits_for_timeout
    (request : Request) (signRequest : SignRequest) (listRequest : ListRequest)
    (cb : chan) (t_deliver : N) (polls : list Poll) (s : EnclaveClient PS)
    (Hps : pairingSecret s = None) :
  RequestMe kr (inl request) cb t_deliver polls s =
    (Done (None, Some ErrTimeout, 20000%N), s, []) /\
  RequestSignature kr signRequest (inl request) cb t_deliver polls s =
    (Done (None, Some ErrTimeout, 15000%N), s, []) /\
  RequestList kr listRequest (inl request) cb t_deliver polls s =
    (Done (None, Some ErrTimeout, 5000%N), s, []).
Proof.
  unfold RequestMe, RequestSignature, RequestList, tryRequest,
    sendRequestAndReceiveResponses.
  run. rewrite Hps. cbn. auto.
Qed.

(** C2 (as the code does it): when the first value the worker sends on the
    channel is the "no answer" sentinel and it arrives before the deadline,
    each typed operation returns neither a payload nor an error. *)
Theorem request_sentinel_returns_no_payload_no_error
    (request : Request) (signRequest : SignRequest) (listRequest : ListRequest)
    (cb : chan) (t_deliver : N) (polls : list Poll) (s : EnclaveClient PS) :
  (worker_delivers_first kr (with_MeRequest request) cb polls s None ->
   (t_deliver < 20000)%N ->
   exists s' tr, RequestMe kr (inl request) cb t_deliver polls s =
                 (Done (None, None, t_deliver), s', tr)) /\
  (worker_delivers_first kr (with_SignRequest request signRequest) cb polls s None ->
   (t_deliver < 15000)%N ->
   exists s' tr, RequestSignature kr signRequest (inl request) cb t_deliver polls s =
                 (Done (None, None, t_deliver), s', tr)) /\
  (worker_delivers_first kr (with_ListRequest request listRequest) cb polls s None ->
   (t_deliver < 5000)%N ->
   exists s' tr, RequestList kr listRequest (inl request) cb t_deliver polls s =
                 (Done (None, None, t_deliver), s', tr)).
Proof.
  unfold worker_delivers_first, RequestMe, RequestSignature, RequestList, tryRequest.
  split; [|split]; intros Hw Ht; apply N.ltb_lt in Ht; unfold bind.
  - destruct (sendRequestAndReceiveResponses kr (with_MeRequest request) cb polls s)
      as [[o s'] tr].
    destruct Hw as [Ho Hf]. rewrite Hf, Ht.
    destruct o; [| contradiction |]; cbn; eauto.
  - destruct (sendRequestAndReceiveResponses kr (with_SignRequest request signRequest)
                cb polls s) as [[o s'] tr].
    destruct Hw as [Ho Hf]. rewrite Hf, Ht.
    destruct o; [| contradiction |]; cbn; eauto.
  - destruct (sendRequestAndReceiveResponses kr (with_ListRequest request listRequest)
                cb polls s) as [[o s'] tr].
    destruct Hw as [Ho Hf]. rewrite Hf, Ht.
    destruct o; [| contradiction |]; cbn; eauto.
Qed.

(** C3: with an established key and no Bluetooth driver, [sendMessage]
    still sends through the cloud queue, but its Bluetooth goroutine calls
    [Write] on the nil [client.bt]. *)
Theorem sendMessage_without_bt_dereferences_nil
    (message ciphertext : bytes) (p : PS) (s : EnclaveClient PS)
    (Hps : pairingSecret s = Some p) (Hbt : bt s = None)
    (Henc : EncryptMessage kr p message = inl ciphertext) :
  snd (sendMessage kr message s) = [EvNilDeref "client.bt"; EvQueueSend message].
Proof.
  unfold sendMessage. run. rewrite Hps. run. rewrite Henc. run. rewrite Hbt.
  destruct (SendMessage kr p message); reflexivity.
Qed.

(** C9: with no pairing secret, [handleCiphertext] first calls
    [UnwrapKeyIfPresent] on the nil secret, before its nil check; it
    returns the never-initiated error only if that call does not
    dereference the receiver. *)
Theorem handleCiphertext_calls_unwrap_on_nil_secret
    (ciphertext : bytes) (s : EnclaveClient PS) (Hps : pairingSecret s = None) :
  (exists tr, snd (handleCiphertext kr ciphertext s) = EvUnwrapCall None :: tr) /\
  fst (fst (handleCiphertext kr ciphertext s)) =
    (if UnwrapKeyIfPresent_nil_panics kr then Panicked
     else Done (Some ErrPairingNeverInitiated)).
Proof.
  unfold handleCiphertext. run. rewrite Hps.
  destruct (UnwrapKeyIfPresent_nil_panics kr); cbn; eauto.
Qed.

(** C10: on a client with no secret, a failed generation leaves
    [ec.pairingSecret] nil and [Pair] panics dereferencing it. *)
Theorem Pair_generation_failure_panics
    (e : error) (s : EnclaveClient PS) (Hps : pairingSecret s = None) :
  fst (fst (Pair kr (inr e) s)) = Panicked.
Proof.
  unfold Pair, generatePairing, deactivatePairing, activatePairing. run.
  destruct (bt s) eqn:Hbt; repeat progress (cbn; rewrite ?Hps, ?Hbt); reflexivity.
Qed.

(** With a secret set, [sendMessage] always returns, keeps the secret and
    the driver, only possibly appends its own message to the queue, and
    has the effects [resend_trace] gives it. *)
Lemma sendMessage_with_secret (p : PS) (m : bytes) (s : EnclaveClient PS)
    (Hps : pairingSecret s = Some p) :
  exists e s', sendMessage kr m s = (Done e, s', resend_trace kr p (bt s) [m]) /\
    pairingSecret s' = Some p /\ bt s' = bt s /\
    incl (outgoingQueue s') (outgoingQueue s ++ [m]).
Proof.
  destruct s as [ps0 cbs0 q0 arn0 me0 bt0]; cbn in Hps; subst ps0.
  unfold sendMessage, resend_trace. run.
  destruct (EncryptMessage kr p m) as [c|err] eqn:Hc.
  - run. destruct (SendMessage kr p m); eexists _, _;
      (split; [reflexivity|]); cbn; repeat split; apply incl_appl; apply incl_refl.
  - destruct (is_ErrWaitingForKey err); run.
    + destruct (Nat.leb (List.length q0) 127);
        eexists _, _; (split; [reflexivity|]); cbn; repeat split;
        solve [apply incl_refl | apply incl_appl; apply incl_refl].
    + eexists _, _; (split; [reflexivity|]); cbn; repeat split.
      apply incl_appl; apply incl_refl.
Qed.

Lemma sendEach_with_secret (p : PS) (queue : list bytes) :
  forall s, pairingSecret s = Some p ->
  let '(o, s1, t) := sendEach kr queue s in
  o = Done tt /\ t = resend_trace kr p (bt s) queue /\ pairingSecret s1 = Some p /\
  bt s1 = bt s /\ incl (outgoingQueue s1) (outgoingQueue s ++ queue).
Proof.
  induction queue as [|m rest IH]; intros s Hps.
  - cbn. rewrite app_nil_r. repeat split; auto using incl_refl.
  - cbn [sendEach]. unfold bind at 1.
    destruct (sendMessage_with_secret p m s Hps) as (e & s' & Hsend & Hps' & Hbt' & Hq').
    rewrite Hsend.
    specialize (IH s' Hps'). destruct (sendEach kr rest s') as [[o1 s1] t1].
    destruct IH as (-> & -> & H1 & H2 & H3). repeat split; auto.
    + rewrite Hbt'. unfold resend_trace. cbn [flat_map]. rewrite app_nil_r. reflexivity.
    + congruence.
    + intros x Hx. apply H3, in_app_or in Hx as [Hx|Hx].
      * apply Hq', in_app_or in Hx as [Hx|[<-|[]]]; apply in_or_app; [left|right; left]; auto.
      * apply in_or_app. right. right. exact Hx.
Qed.

(** With a secret set, the loop over the swapped-out queue does what
    [sendEach] does, whatever each send returns. *)
Lemma sendQueuedMessages_sendEach (p : PS) (queue : list bytes) :
  forall err s, pairingSecret s = Some p ->
  exists err', sendQueuedMessages kr queue err s =
    (Done err', snd (fst (sendEach kr queue s)), snd (sendEach kr queue s)).
Proof.
  induction queue as [|m rest IH]; intros err s Hps.
  - exists err. reflexivity.
  - cbn [sendQueuedMessages sendEach]. unfold bind.
    destruct (sendMessage_with_secret p m s Hps) as (e & s' & Hsend & Hps' & _ & _).
    rewrite Hsend.
    destruct (IH e s' Hps') as [err' Herr]. rewrite Herr.
    pose proof (sendEach_with_secret p rest s' Hps') as HE.
    destruct (sendEach kr rest s') as [[o1 s1] t1].
    destruct HE as [-> _]. exists err'. reflexivity.
Qed.

(** C5: when a ciphertext unwraps the key, [handleCiphertext] saves the
    updated secret, swaps the outgoing queue for an empty one, and then
    calls [sendMessage] on every queued message in enqueue order: the
    sends run from the flushed client, always return, and together have
    the effects of sending each message on its own, so a message whose
    encryption or cloud send fails does not stop the later ones; only
    messages re-queued by those sends are left in the queue.  Whatever
    the unwrapped remainder [u], these effects come first in the trace;
    with no remainder they are the whole of it. *)
Theorem handleCiphertext_key_unwrap_flushes_queue
    (ciphertext : bytes) (s : EnclaveClient PS) (p p' : PS) (u : option bytes)
    (Hps : pairingSecret s = Some p)
    (Hunwrap : UnwrapKeyIfPresent kr p ciphertext = (p', u, true, None)) :
  let '(o1, s1, t1) := sendEach kr (outgoingQueue s) (flushed p' s) in
  o1 = Done tt /\
  t1 = resend_trace kr p' (bt s) (outgoingQueue s) /\
  pairingSecret s1 = Some p' /\
  incl (outgoingQueue s1) (outgoingQueue s) /\
  (exists rest, snd (handleCiphertext kr ciphertext s) =
     EvUnwrapCall (Some p) :: EvSavePairing p' :: t1 ++ rest) /\
  (u = None -> exists err, handleCiphertext kr ciphertext s =
     (Done err, s1, EvUnwrapCall (Some p) :: EvSavePairing p' :: t1)).
Proof.
  unfold flushed.
  set (s0 := set_outgoingQueue [] (set_pairingSecret (Some p') s)).
  destruct (sendQueuedMessages_sendEach p' (outgoingQueue s) None s0 eq_refl) as [err' Hq].
  pose proof (sendEach_with_secret p' (outgoingQueue s) s0 eq_refl) as HE.
  unfold handleCiphertext. run. rewrite Hps. cbn. rewrite Hunwrap. cbn.
  fold s0. rewrite Hq.
  destruct (sendEach kr (outgoingQueue s) s0) as [[o1 s1] t1].
  destruct HE as (-> & Ht & Hp1 & Hbt1 & Hinc). cbn.
  split; [reflexivity|]. split; [exact Ht|]. split; [exact Hp1|]. split; [exact Hinc|].
  destruct u as [v|].
  - split; [|discriminate].
    destruct (DecryptMessage kr p' v) as [[message|] [e|]]; cbn;
      try (eexists; rewrite ?app_nil_r; reflexivity).
    destruct (handleMessage kr message s1) as [[o2 s2] t2]. cbn.
    eexists. reflexivity.
  - split.
    + exists []. rewrite app_nil_r. reflexivity.
    + intros _. exists err'. rewrite app_nil_r. reflexivity.
Qed.

Lemma receiveCiphertexts_handles_each (ciphertexts : list bytes) :
  forall (err : option error) (s : EnclaveClient PS),
  snd (receiveCiphertexts kr ciphertexts err s) = snd (handleEach kr ciphertexts s) /\
  snd (fst (receiveCiphertexts kr ciphertexts err s)) =
    snd (fst (handleEach kr ciphertexts s)) /\
  outcome_map (fun _ => tt) (fst (fst (receiveCiphertexts kr ciphertexts err s))) =
    fst (fst (handleEach kr ciphertexts s)).
Proof.
  induction ciphertexts as [|c rest IH]; intros err s; [repeat split|].
  cbn [receiveCiphertexts handleEach]. unfold bind.
  destruct (handleCiphertext kr c s) as [[o s1] t1].
  destruct o as [ce| |]; [|repeat split..].
  match goal with
  | |- context [receiveCiphertexts kr rest ?e s1] =>
      destruct (IH e s1) as [H1 [H2 H3]];
      destruct (receiveCiphertexts kr rest e s1) as [[o2 s2] t2]
  end.
  destruct (handleEach kr rest s1) as [[o3 s3] t3].
  cbn in H1, H2, H3 |- *. subst. auto.
Qed.

(** The result of the receive loop over a batch is fixed by the result of
    its last ciphertext: [nil] or a failure replaces whatever came before;
    only waiting for the key keeps it. *)
Lemma receiveCiphertexts_snoc (ciphertexts : list bytes) (c : bytes) :
  forall (err e0 r : option error) (s s1 s2 : EnclaveClient PS) (t1 t2 : list (Event PS)),
  receiveCiphertexts kr ciphertexts err s = (Done e0, s1, t1) ->
  handleCiphertext kr c s1 = (Done r, s2, t2) ->
  receiveCiphertexts kr (ciphertexts ++ [c]) err s =
    (Done (match r with
           | Some e => if is_ErrWaitingForKey e then e0 else Some e
           | None => None
           end), s2, t1 ++ t2).
Proof.
  induction ciphertexts as [|a rest IH]; intros err e0 r s s1 s2 t1 t2 H1 H2.
  - cbn in H1. injection H1 as <- <- <-.
    cbn [app receiveCiphertexts]. unfold bind. rewrite H2.
    destruct r as [e|]; [destruct (is_ErrWaitingForKey e)|]; cbn; rewrite app_nil_r; reflexivity.
  - cbn [app receiveCiphertexts] in *. unfold bind in *.
    destruct (handleCiphertext kr a s) as [[o sa] ta].
    destruct o as [ce| |]; try discriminate H1.
    match type of H1 with
    | context [receiveCiphertexts kr rest ?e' sa] =>
        destruct (receiveCiphertexts kr rest e' sa) as [[o' s1'] t1'] eqn:Er;
        injection H1 as -> -> <-;
        rewrite (IH e' e0 r sa s1 s2 t1' t2 Er H2)
    end.
    rewrite app_assoc. reflexivity.
Qed.

Lemma first_send_app (cb : chan) (l1 l2 : list (Event PS)) :
  first_send cb (l1 ++ l2) =
    match first_send cb l1 with Some v => Some v | None => first_send cb l2 end.
Proof.
  induction l1 as [|ev l1 IH]; [reflexivity|].
  destruct ev; cbn; try exact IH.
  match goal with |- context [Nat.eqb ?a ?b] => destruct (Nat.eqb a b) end; auto.
Qed.

(** C4 (as the code does it): every ciphertext of a drained batch is
    handled in order whatever earlier ones returned; but the receive step
    then returns the result of the batch's last ciphertext, so a decrypt or
    envelope failure is reported as the receive error exactly when it is on
    the last ciphertext (an earlier one is overwritten by a later [nil]);
    and a receive error while the request is still registered ends its
    worker's drain loop, whatever later polls would bring, so the waiter
    gets the no-answer sentinel. *)
Theorem drain_error_position_decides :
  (forall ciphertexts err s,
     snd (receiveCiphertexts kr ciphertexts err s) = snd (handleEach kr ciphertexts s) /\
     snd (fst (receiveCiphertexts kr ciphertexts err s)) =
       snd (fst (handleEach kr ciphertexts s))) /\
  (forall ciphertexts c deadline e0 r s s1 s2 t1 t2,
     receiveCiphertexts kr ciphertexts None s = (Done e0, s1, t1) ->
     handleCiphertext kr c s1 = (Done r, s2, t2) ->
     receive kr {| poll_ReadQueue := inl (ciphertexts ++ [c]);
                   poll_deadline_passed := deadline |} s =
       (Done (0, match r with
                 | Some e => if is_ErrWaitingForKey e then e0 else Some e
                 | None => None
                 end), s2, t1 ++ t2)) /\
  (forall request cb p j pl rest s err0 s_sent t_sent n e s1 t1,
     pairingSecret s = Some p ->
     MarshalRequest kr request = Some j ->
     sendMessage kr j (set_callbacks (lru_add (rq_RequestID request) cb
                                        (requestCallbacksByRequestID s)) s) =
       (Done err0, s_sent, t_sent) ->
     (err0 = None \/ exists q, err0 = Some (SendQueued q)) ->
     receive kr pl s_sent = (Done (n, Some e), s1, t1) ->
     lru_find (rq_RequestID request) (requestCallbacksByRequestID s1) = Some cb ->
     first_send cb (t_sent ++ t1) = None ->
     worker_delivers_first kr request cb (pl :: rest) s None).
Proof.
  split; [|split].
  - intros ciphertexts err s.
    destruct (receiveCiphertexts_handles_each ciphertexts err s) as [H1 [H2 _]]. auto.
  - intros ciphertexts c deadline e0 r s s1 s2 t1 t2 H1 H2.
    unfold receive. cbn [poll_ReadQueue]. unfold bind.
    rewrite (receiveCiphertexts_snoc ciphertexts c None e0 r s s1 s2 t1 t2 H1 H2).
    cbn. rewrite app_nil_r. reflexivity.
  - intros request cb p j pl rest s err0 s_sent t_sent n e s1 t1
      Hps Hmarshal Hsend Hok Hrecv Hfind Hfirst.
    unfold worker_delivers_first, sendRequestAndReceiveResponses, getPairingSecret.
    cbn [drainLoop].
    unfold bind, gets, ret, modify, emit.
    rewrite Hps. cbv beta iota zeta. rewrite Hmarshal. cbv beta iota zeta.
    rewrite Hsend. cbv beta iota zeta.
    destruct Hok as [-> | [q ->]]; cbv beta iota zeta;
      rewrite Hrecv; cbv beta iota zeta;
      unfold lru_get; rewrite Hfind; cbv beta iota zeta delta [is_some orb set_callbacks];
      cbn [requestCallbacksByRequestID lru_find fst]; rewrite String.eqb_refl;
      cbv beta iota zeta;
      (split; [discriminate|]);
      rewrite ?app_nil_l, ?app_nil_r, app_assoc, first_send_app, Hfirst;
      cbn; rewrite Nat.eqb_refl; reflexivity.
Qed.

End Proofs.

(** ** Invariants kept by every operation *)

Section Invariants.
Context {PS : Type} (kr : Collaborators PS).

Lemma preserves_bind {A B} (P : EnclaveClient PS -> Prop) (m : M PS A) (k : A -> M PS B) :
  preserves P m -> (forall a, preserves P (k a)) -> preserves P (bind m k).
Proof.
  intros Hm Hk s o s' tr Hs Hrun. unfold bind in Hrun.
  destruct (m s) as [[o1 s1] t1] eqn:E1.
  destruct o1 as [a| |].
  - destruct (k a s1) as [[o2 s2] t2] eqn:E2. injection Hrun as <- <- <-.
    exact (Hk a s1 o2 s2 t2 (Hm s _ s1 t1 Hs E1) E2).
  - injection Hrun as <- <- <-. exact (Hm s _ s1 t1 Hs E1).
  - injection Hrun as <- <- <-. exact (Hm s _ s1 t1 Hs E1).
Qed.

Lemma preserves_ret {A} (P : EnclaveClient PS -> Prop) (a : A) : preserves P (ret a).
Proof. intros s o s' tr Hs H. injection H; intros; subst; exact Hs. Qed.

Lemma preserves_gets {A} (P : EnclaveClient PS -> Prop) (f : EnclaveClient PS -> A) :
  preserves P (gets f).
Proof. intros s o s' tr Hs H. injection H; intros; subst; exact Hs. Qed.

Lemma preserves_emit (P : EnclaveClient PS -> Prop) (e : Event PS) : preserves P (emit e).
Proof. intros s o s' tr Hs H. injection H; intros; subst; exact Hs. Qed.

Lemma preserves_panic {A} (P : EnclaveClient PS -> Prop) : preserves P (@panic PS A).
Proof. intros s o s' tr Hs H. injection H; intros; subst; exact Hs. Qed.

Lemma preserves_out_of_fuel {A} (P : EnclaveClient PS -> Prop) :
  preserves P (@out_of_fuel PS A).
Proof. intros s o s' tr Hs H. injection H; intros; subst; exact Hs. Qed.

Lemma preserves_modify (P : EnclaveClient PS -> Prop) f :
  (forall s, P s -> P (f s)) -> preserves P (modify f).
Proof. intros Hf s o s' tr Hs H. injection H; intros; subst; auto. Qed.

End Invariants.

Ltac pres :=
  unfold getPairingSecret;
  repeat match goal with
  | |- preserves _ (bind _ _) => apply preserves_bind; [|intros ?]
  | |- preserves _ (ret _) => apply preserves_ret
  | |- preserves _ (gets _) => apply preserves_gets
  | |- preserves _ (emit _) => apply preserves_emit
  | |- preserves _ panic => apply preserves_panic
  | |- preserves _ out_of_fuel => apply preserves_out_of_fuel
  | |- preserves _ (modify _) => apply preserves_modify; intros ?s ?Hs
  | |- preserves _ (match ?x with _ => _ end) => destruct x
  | |- preserves _ (if ?x then _ else _) => destruct x
  end.

Section Extras.
Context {PS : Type} (kr : Collaborators PS).

Lemma preserves_bind_gets {A B} (P : EnclaveClient PS -> Prop) (f : EnclaveClient PS -> A)
    (k : A -> M PS B) :
  (forall s, P s -> forall o s' tr, k (f s) s = (o, s', tr) -> P s') ->
  preserves P (bind (gets f) k).
Proof.
  intros H s o s' tr Hs Hrun. unfold bind, gets in Hrun.
  destruct (k (f s) s) as [[o1 s1] t1] eqn:E. injection Hrun as <- <- <-.
  exact (H s Hs _ _ _ E).
Qed.

Lemma sendMessage_preserves_queue_bounded (message : bytes) :
  preserves queue_bounded (sendMessage kr message).
Proof.
  unfold sendMessage. pres; unfold queue_bounded in *.
  destruct (Nat.ltb _ _) eqn:Hlt; [|assumption].
  apply Nat.ltb_lt in Hlt. cbn. rewrite length_app. cbn. lia.
Qed.

Lemma sendQueuedMessages_preserves_queue_bounded (queue : list bytes) (err : option error) :
  preserves queue_bounded (sendQueuedMessages kr queue err).
Proof.
  revert err. induction queue as [|m rest IH]; intros err; cbn.
  - apply preserves_ret.
  - apply preserves_bind; [apply sendMessage_preserves_queue_bounded|intros e; apply IH].
Qed.

Lemma handleMessage_preserves_queue_bounded (message : bytes) :
  preserves queue_bounded (handleMessage kr message).
Proof.
  unfold handleMessage. pres; assumption.
Qed.

Lemma handleCiphertext_preserves_queue_bounded (ciphertext : bytes) :
  preserves queue_bounded (handleCiphertext kr ciphertext).
Proof.
  unfold handleCiphertext. pres;
    try apply handleMessage_preserves_queue_bounded;
    try apply sendQueuedMessages_preserves_queue_bounded;
    unfold queue_bounded in *; cbn; try lia; assumption.
Qed.

Lemma receiveCiphertexts_preserves_queue_bounded (cts : list bytes) (err : option error) :
  preserves queue_bounded (receiveCiphertexts kr cts err).
Proof.
  revert err. induction cts as [|c rest IH]; intros err; cbn.
  - apply preserves_ret.
  - apply preserves_bind; [apply handleCiphertext_preserves_queue_bounded|intros e; apply IH].
Qed.

Lemma drainLoop_preserves_queue_bounded (requestID : string) (polls : list Poll) :
  preserves queue_bounded (drainLoop kr requestID polls).
Proof.
  induction polls as [|pl rest IH]; cbn.
  - apply preserves_out_of_fuel.
  - apply preserves_bind.
    + unfold receive. destruct (poll_ReadQueue pl); pres;
        try apply receiveCiphertexts_preserves_queue_bounded.
    + intros [n err]. pres; try exact Hs; exact IH.
Qed.

(** The worker [sendRequestAndReceiveResponses], with everything it runs
    (the send, the drain loop and the handling of every ciphertext), never
    takes the outgoing queue past 128 messages. *)
Theorem worker_preserves_queue_bound (request : Request) (cb : chan) (polls : list Poll)
    (s : EnclaveClient PS) (o : outcome (option error)) (s' : EnclaveClient PS)
    (tr : list (Event PS))
    (Hbound : List.length (outgoingQueue s) <= 128)
    (Hrun : sendRequestAndReceiveResponses kr request cb polls s = (o, s', tr)) :
  List.length (outgoingQueue s') <= 128.
Proof.
  revert s o s' tr Hbound Hrun. fold (@queue_bounded PS).
  change (preserves queue_bounded (sendRequestAndReceiveResponses kr request cb polls)).
  unfold sendRequestAndReceiveResponses. pres;
    try apply sendMessage_preserves_queue_bounded;
    try apply drainLoop_preserves_queue_bounded; exact Hs.
Qed.

Lemma lru_find_some_in (k : string) (v : chan) (c : lru) :
  lru_find k c = Some v -> In (k, v) c.
Proof.
  induction c as [|[k' v'] r IH]; cbn; [discriminate|].
  destruct (String.eqb k' k) eqn:E.
  - intros H. injection H as <-. apply String.eqb_eq in E. subst. left; reflexivity.
  - intros H. right. apply IH, H.
Qed.

Lemma lru_del_incl (k : string) (c : lru) : incl (lru_del k c) c.
Proof. intros e He. unfold lru_del in He. apply filter_In in He. apply He. Qed.

Lemma lru_get_within (k : string) (c : lru) (found : option chan) (c' : lru) :
  lru_get k c = (found, c') -> NoDup (map fst c) -> NoDup (map fst c') /\ incl c' c.
Proof.
  unfold lru_get. destruct (lru_find k c) as [v|] eqn:E; intros H Hnd;
    injection H as <- <-.
  - split.
    + cbn. constructor; [apply lru_find_in, lru_find_del|apply lru_del_NoDup, Hnd].
    + intros e [He|He]; [subst; apply lru_find_some_in, E|apply (lru_del_incl k c), He].
  - split; [exact Hnd|apply incl_refl].
Qed.

Lemma lru_add_incl (k : string) (v : chan) (c : lru) : incl (lru_add k v c) ((k, v) :: c).
Proof.
  unfold lru_add. destruct (lru_find k c).
  - intros e [He|He]; [left; exact He|right; apply (lru_del_incl k c), He].
  - destruct (Nat.ltb _ _); [intros e He; apply in_removelast_in, He|apply incl_refl].
Qed.

Lemma sendMessage_preserves_callbacks (c0 : lru) (message : bytes) :
  preserves (callbacks_within c0) (sendMessage kr message).
Proof.
  unfold sendMessage. pres. destruct (Nat.ltb _ _); assumption.
Qed.

Lemma sendQueuedMessages_preserves_callbacks (c0 : lru) (queue : list bytes)
    (err : option error) :
  preserves (callbacks_within c0) (sendQueuedMessages kr queue err).
Proof.
  revert err. induction queue as [|m rest IH]; intros err; cbn.
  - apply preserves_ret.
  - apply preserves_bind; [apply sendMessage_preserves_callbacks|intros e; apply IH].
Qed.

Lemma handleMessage_preserves_callbacks (c0 : lru) (message : bytes) :
  preserves (callbacks_within c0) (handleMessage kr message).
Proof.
  intros s o s' tr [Hnd Hin] Hrun.
  destruct (UnmarshalResponse kr message) as [response|] eqn:Hparse.
  - rewrite (handleMessage_parsed kr _ _ _ Hparse) in Hrun.
    injection Hrun as <- <- <-. cbn [requestCallbacksByRequestID set_callbacks].
    unfold lru_remove.
    split; [apply lru_del_NoDup, Hnd|].
    intros e He. apply Hin, (lru_del_incl _ _ _ He).
  - unfold handleMessage in Hrun. rewrite Hparse in Hrun. injection Hrun as <- <- <-.
    split; assumption.
Qed.

Lemma handleCiphertext_preserves_callbacks (c0 : lru) (ciphertext : bytes) :
  preserves (callbacks_within c0) (handleCiphertext kr ciphertext).
Proof.
  unfold handleCiphertext. pres;
    try apply handleMessage_preserves_callbacks;
    try apply sendQueuedMessages_preserves_callbacks; assumption.
Qed.

Lemma receiveCiphertexts_preserves_callbacks (c0 : lru) (cts : list bytes)
    (err : option error) :
  preserves (callbacks_within c0) (receiveCiphertexts kr cts err).
Proof.
  revert err. induction cts as [|c rest IH]; intros err; cbn.
  - apply preserves_ret.
  - apply preserves_bind; [apply handleCiphertext_preserves_callbacks|intros e; apply IH].
Qed.

Lemma drainLoop_preserves_callbacks (c0 : lru) (requestID : string) (polls : list Poll) :
  preserves (callbacks_within c0) (drainLoop kr requestID polls).
Proof.
  induction polls as [|pl rest IH]; cbn.
  - apply preserves_out_of_fuel.
  - apply preserves_bind.
    + unfold receive. destruct (poll_ReadQueue pl); pres;
        try apply receiveCiphertexts_preserves_callbacks.
    + intros [n err]. apply preserves_bind_gets. intros s [Hnd Hin] o s' tr Hrun.
      destruct (lru_get requestID (requestCallbacksByRequestID s)) as [found cbs'] eqn:E.
      destruct (lru_get_within _ _ _ _ E Hnd) as [Hnd' Hin'].
      assert (Hs' : callbacks_within c0 (set_callbacks cbs' s)).
      { split; [exact Hnd'|intros e He; apply Hin, Hin', He]. }
      unfold bind, modify in Hrun.
      destruct (_ || _).
      * cbn in Hrun. injection Hrun as <- <- <-. exact Hs'.
      * destruct (drainLoop kr requestID rest (set_callbacks cbs' s)) as [[o1 s1] t1]
          eqn:Hd.
        injection Hrun as <- <- <-. exact (IH _ _ _ _ Hs' Hd).
Qed.

(** Handling a ciphertext never registers a request: the correlator
    afterwards holds a subset of the entries it held before, and stays free
    of duplicate identifiers. *)
Theorem handleCiphertext_never_adds_callbacks (ciphertext : bytes)
    (s : EnclaveClient PS) (o : outcome (option error)) (s' : EnclaveClient PS)
    (tr : list (Event PS))
    (Hnd : NoDup (map fst (requestCallbacksByRequestID s)))
    (Hrun : handleCiphertext kr ciphertext s = (o, s', tr)) :
  NoDup (map fst (requestCallbacksByRequestID s')) /\
  incl (requestCallbacksByRequestID s') (requestCallbacksByRequestID s).
Proof.
  exact (handleCiphertext_preserves_callbacks (requestCallbacksByRequestID s) ciphertext
           s o s' tr (conj Hnd (incl_refl _)) Hrun).
Qed.

(** The worker registers exactly one entry, [(rq_RequestID request, cb)]:
    every entry of the correlator afterwards was there before or is that
    one, and no identifier appears twice. *)
Theorem worker_callbacks_within (request : Request) (cb : chan) (polls : list Poll)
    (s : EnclaveClient PS) (o : outcome (option error)) (s' : EnclaveClient PS)
    (tr : list (Event PS))
    (Hnd : NoDup (map fst (requestCallbacksByRequestID s)))
    (Hrun : sendRequestAndReceiveResponses kr request cb polls s = (o, s', tr)) :
  NoDup (map fst (requestCallbacksByRequestID s')) /\
  incl (requestCallbacksByRequestID s')
       ((rq_RequestID request, cb) :: requestCallbacksByRequestID s).
Proof.
  set (c0 := (rq_RequestID request, cb) :: requestCallbacksByRequestID s).
  change (callbacks_within c0 s'). revert Hrun.
  unfold sendRequestAndReceiveResponses, getPairingSecret.
  unfold bind at 1, gets at 1. destruct (pairingSecret s) as [p|].
  2:{ intros Hrun; injection Hrun as <- <- <-. split; [exact Hnd|intros e He; right; exact He]. }
  destruct (MarshalRequest kr request) as [json|].
  2:{ intros Hrun; injection Hrun as <- <- <-. split; [exact Hnd|intros e He; right; exact He]. }
  set (s1 := set_callbacks (lru_add (rq_RequestID request) cb
                             (requestCallbacksByRequestID s)) s).
  assert (Hs1 : callbacks_within c0 s1).
  { split; [apply lru_add_NoDup, Hnd|apply lru_add_incl]. }
  intros Hrun.
  assert (Hk : preserves (callbacks_within c0)
    (err <- sendMessage kr json ;;
     match err with
     | Some (SendQueued _) | None =>
         drainLoop kr (rq_RequestID request) polls ;;
         cbs <- gets requestCallbacksByRequestID ;;
         (let '(found, cbs') := lru_get (rq_RequestID request) cbs in
          match found with
          | Some c =>
              modify (set_callbacks cbs') ;;
              emit (EvChanSend c None) ;;
              modify (fun s => set_callbacks
                        (lru_remove (rq_RequestID request) (requestCallbacksByRequestID s)) s)
          | None => ret tt
          end) ;;
         ret None
     | Some e => ret (Some e)
     end)).
  { apply preserves_bind; [apply sendMessage_preserves_callbacks|intros err].
    destruct err as [[]|]; try apply preserves_ret;
      (apply preserves_bind; [apply drainLoop_preserves_callbacks|intros ?]);
      apply preserves_bind_gets; intros s2 [Hnd2 Hin2] o2 s3 t3 Hrun2;
      destruct (lru_get (rq_RequestID request) (requestCallbacksByRequestID s2))
        as [found cbs'] eqn:E;
      destruct (lru_get_within _ _ _ _ E Hnd2) as [Hnd' Hin'];
      unfold bind, modify, emit, ret in Hrun2;
      (destruct found as [c|];
       [cbn in Hrun2; injection Hrun2 as <- <- <-;
        cbn [requestCallbacksByRequestID set_callbacks]; unfold lru_remove; split;
        [apply lru_del_NoDup, Hnd'|intros e' He; apply Hin2, Hin', (lru_del_incl _ _ _ He)]
       |cbn in Hrun2; injection Hrun2 as <- <- <-; split; assumption]). }
  unfold bind at 1, modify at 1 in Hrun. fold s1 in Hrun.
  match type of Hrun with
  | context [?m s1] =>
      lazymatch m with
      | bind _ _ => destruct (m s1) as [[o1 s2] t1] eqn:E1
      end
  end.
  cbn in Hrun. injection Hrun as <- <- <-. exact (Hk _ _ _ _ Hs1 E1).
Qed.

Lemma lru_del_shorter (k : string) (v : chan) (c : lru) :
  lru_find k c = Some v -> List.length (lru_del k c) < List.length c.
Proof.
  unfold lru_del. induction c as [|[k' v'] r IH]; cbn; [discriminate|].
  destruct (String.eqb k' k); cbn.
  - intros _. pose proof (filter_length_le (fun e => negb (String.eqb (fst e) k)) r).
    lia.
  - intros H. specialize (IH H). lia.
Qed.

Lemma length_removelast_cons {A} (a : A) (l : list A) :
  List.length (removelast (a :: l)) = List.length l.
Proof.
  revert a. induction l as [|b r IH]; intros a; [reflexivity|].
  change (removelast (a :: b :: r)) with (a :: removelast (b :: r)).
  cbn [List.length]. rewrite IH. reflexivity.
Qed.

(** [lru.Cache.Add] never takes a cache created by [lru.New(128)] past its
    128 entries: a new key beyond capacity evicts one, a known key is moved
    to the front in place. *)
Theorem lru_add_bounded (k : string) (v : chan) (c : lru)
    (Hc : List.length c <= lru_MaxEntries) :
  List.length (lru_add k v c) <= lru_MaxEntries.
Proof.
  unfold lru_add. destruct (lru_find k c) as [v'|] eqn:E.
  - pose proof (lru_del_shorter k v' c E). cbn [List.length]. lia.
  - destruct (Nat.ltb lru_MaxEntries (List.length ((k, v) :: c))) eqn:Hlt.
    + rewrite length_removelast_cons. exact Hc.
    + apply Nat.ltb_ge in Hlt. exact Hlt.
Qed.

(** Right after [Add(k, v)] the cache answers [v] for [k], whether [k] was
    new, already present, or the cache was full. *)
Theorem lru_add_find (k : string) (v : chan) (c : lru) :
  lru_find k (lru_add k v c) = Some v.
Proof.
  unfold lru_add. destruct (lru_find k c).
  - cbn [lru_find]. rewrite String.eqb_refl. reflexivity.
  - destruct (Nat.ltb _ _) eqn:Hlt.
    + destruct c as [|e r]; [cbn in Hlt; discriminate|].
      cbn [removelast lru_find]. rewrite String.eqb_refl. reflexivity.
    + cbn [lru_find]. rewrite String.eqb_refl. reflexivity.
Qed.

(** Adding a new key to a full cache evicts exactly the least recently used
    entry, the last one: the new entry goes to the front, and the evicted
    key is no longer found. *)
Theorem lru_add_evicts_oldest (k : string) (v : chan) (c : lru)
    (Hnd : NoDup (map fst c))
    (Hfull : List.length c = lru_MaxEntries)
    (Hnew : lru_find k c = None) :
  lru_add k v c = (k, v) :: removelast c /\
  lru_find (fst (last c (k, v))) (lru_add k v c) = None /\
  List.length (lru_add k v c) = lru_MaxEntries.
Proof.
  assert (Hadd : lru_add k v c = (k, v) :: removelast c).
  { unfold lru_add. rewrite Hnew.
    replace (Nat.ltb lru_MaxEntries (List.length ((k, v) :: c))) with true.
    2:{ symmetry. apply Nat.ltb_lt. cbn [List.length]. lia. }
    destruct c as [|e r]; [cbn in Hfull; discriminate|reflexivity]. }
  assert (Hne : c <> []) by (intros ->; cbn in Hfull; discriminate).
  pose proof (app_removelast_last (k, v) Hne) as Hsplit.
  set (x := last c (k, v)) in *.
  split; [exact Hadd|]. split.
  - rewrite Hadd. cbn.
    assert (Hx : In x c) by (rewrite Hsplit; apply in_or_app; right; left; reflexivity).
    destruct (String.eqb k (fst x)) eqn:Ek.
    + apply String.eqb_eq in Ek. exfalso.
      apply (proj1 (lru_find_in k c) Hnew). rewrite Ek. apply in_map, Hx.
    + apply lru_find_in. rewrite Hsplit, map_app in Hnd. cbn in Hnd.
      apply NoDup_remove_2 in Hnd. rewrite app_nil_r in Hnd. exact Hnd.
  - rewrite Hadd. cbn [List.length].
    destruct c as [|e r]; [contradiction|]. rewrite length_removelast_cons.
    cbn in Hfull. unfold lru_MaxEntries in *. lia.
Qed.

(** A ciphertext that does not unwrap a new key leaves the outgoing queue
    as it was and sends nothing: no Bluetooth write and no queue send,
    whether it unwraps, decrypts and parses or fails on the way. *)
Theorem handleCiphertext_no_unwrap_sends_nothing (ciphertext : bytes) (p p' : PS)
    (u : option bytes) (uerr : option error) (s : EnclaveClient PS)
    (o : outcome (option error)) (s' : EnclaveClient PS) (tr : list (Event PS))
    (Hps : pairingSecret s = Some p)
    (Hunwrap : UnwrapKeyIfPresent kr p ciphertext = (p', u, false, uerr))
    (Hrun : handleCiphertext kr ciphertext s = (o, s', tr)) :
  outgoingQueue s' = outgoingQueue s /\
  (forall m, ~ In (EvQueueSend m) tr) /\
  (forall c, ~ In (EvBtWrite c) tr).
Proof.
  unfold handleCiphertext in Hrun. run. rewrite Hps, Hunwrap in Hrun. cbn in Hrun.
  assert (Hgen : forall (tr0 : list (Event PS)),
    (forall e, In e tr0 -> e = EvUnwrapCall (Some p) \/ exists q, e = EvSavePairing q) \/
    (exists ch r, forall e, In e tr0 -> e = EvUnwrapCall (Some p) \/
                   (exists q, e = EvSavePairing q) \/ e = EvChanSend ch r) ->
    (forall m, ~ In (EvQueueSend m) tr0) /\ (forall c, ~ In (EvBtWrite c) tr0)).
  { intros tr0 [H|[ch [r H]]]; split; intros x Hin; apply H in Hin;
      repeat match type of Hin with
             | _ \/ _ => destruct Hin as [Hin|Hin]
             | exists _, _ => destruct Hin as [? Hin]
             end; discriminate. }
  destruct uerr as [e|].
  { injection Hrun as <- <- <-. split; [reflexivity|].
    apply Hgen. left. intros e' [He|[]]. left; symmetry; exact He. }
  cbn in Hrun. destruct u as [u|].
  2:{ injection Hrun as <- <- <-. split; [reflexivity|].
      apply Hgen. left. intros e' [He|[]]. left; symmetry; exact He. }
  destruct (DecryptMessage kr p' u) as [[m|] [e|]]; cbn in Hrun;
    try (injection Hrun as <- <- <-; split; [reflexivity|];
         apply Hgen; left; intros e' [He|[]]; left; symmetry; exact He).
  destruct (UnmarshalResponse kr m) as [response|] eqn:Hparse.
  - rewrite (handleMessage_parsed kr _ _ _ Hparse) in Hrun.
    injection Hrun as <- <- <-.
    cbn [outgoingQueue set_callbacks set_pairingSecret]. rewrite applySNS_queue.
    split; [reflexivity|]. apply Hgen. right.
    exists (match lru_find (rs_RequestID response)
               (requestCallbacksByRequestID (set_pairingSecret (Some p') s)) with
            | Some ch => ch | None => 0 end), (Some response).
    intros e' He. cbn in He. destruct He as [He|He]; [left; symmetry; exact He|].
    apply in_app_or in He as [He|He].
    + right; left. apply (applySNS_trace kr response _ _ He).
    + right; right. destruct (lru_find _ _); [|destruct He].
      destruct He as [He|[]]. symmetry; exact He.
  - unfold handleMessage in Hrun. rewrite Hparse in Hrun. injection Hrun as <- <- <-.
    split; [reflexivity|]. apply Hgen. left. intros e' [He|[]]. left; symmetry; exact He.
Qed.

Lemma receive_counts_zero (pl : Poll) (s : EnclaveClient PS) (n : nat)
    (err : option error) (s1 : EnclaveClient PS) (t1 : list (Event PS)) :
  receive kr pl s = (Done (n, err), s1, t1) -> n = 0.
Proof.
  unfold receive. destruct (poll_ReadQueue pl) as [cts|e].
  - unfold bind, ret. destruct (receiveCiphertexts kr cts None s) as [[[e| |] s2] t2];
      intros H; injection H; intros; subst; reflexivity || discriminate.
  - unfold ret. intros H. injection H; intros; subst; reflexivity.
Qed.

(** Because [receive] never counts what it received, the drain loop ends
    after the first poll taken once its deadline has passed, even when that
    poll delivered ciphertexts: the polls after it are never looked at. *)
Theorem drainLoop_stops_at_deadline (requestID : string) (pl : Poll)
    (rest rest' : list Poll) (s : EnclaveClient PS)
    (Hdl : poll_deadline_passed pl = true) :
  drainLoop kr requestID (pl :: rest) s = drainLoop kr requestID (pl :: rest') s.
Proof.
  cbn [drainLoop]. unfold bind.
  destruct (receive kr pl s) as [[[[n err]| |] s1] t1] eqn:E; try reflexivity.
  apply receive_counts_zero in E. subst n.
  unfold bind, gets, modify. rewrite Hdl.
  destruct (lru_get requestID (requestCallbacksByRequestID s1)) as [found cbs'].
  destruct err; reflexivity.
Qed.

Lemma sendMessage_callbacks_same (message : bytes) (c0 : lru) :
  preserves (fun s => requestCallbacksByRequestID s = c0) (sendMessage kr message).
Proof. unfold sendMessage. pres. destruct (Nat.ltb _ _); assumption. Qed.

Lemma callbacks_set (c : lru) (s : EnclaveClient PS) :
  requestCallbacksByRequestID (set_callbacks c s) = c.
Proof. reflexivity. Qed.

Lemma cleanup_unregisters (requestID : string) (s : EnclaveClient PS)
    (o : outcome (option error)) (s' : EnclaveClient PS) (tr : list (Event PS)) :
  (cbs <- gets requestCallbacksByRequestID ;;
   (let '(found, cbs') := lru_get requestID cbs in
    match found with
    | Some c =>
        modify (set_callbacks cbs') ;;
        emit (EvChanSend c None) ;;
        modify (fun s => set_callbacks
                  (lru_remove requestID (requestCallbacksByRequestID s)) s)
    | None => ret tt
    end) ;;
   ret None) s = (o, s', tr) ->
  lru_find requestID (requestCallbacksByRequestID s') = None.
Proof.
  unfold lru_get, bind, ret, gets, modify, emit. cbv beta iota zeta.
  destruct (lru_find requestID (requestCallbacksByRequestID s)) eqn:Ef;
    cbv beta iota zeta;
    intros H; injection H as <- <- <-; rewrite ?callbacks_set; [|exact Ef].
  rewrite String.eqb_refl. cbn [negb]. unfold lru_remove. apply lru_find_del.
Qed.

(** A worker that finishes without an error has unregistered its request:
    the correlator holds no entry for its identifier any more. *)
Theorem worker_done_unregisters (request : Request) (cb : chan) (polls : list Poll)
    (s s' : EnclaveClient PS) (tr : list (Event PS))
    (Hrun : sendRequestAndReceiveResponses kr request cb polls s = (Done None, s', tr)) :
  lru_find (rq_RequestID request) (requestCallbacksByRequestID s') = None.
Proof.
  revert Hrun. unfold sendRequestAndReceiveResponses.
  set (cl := bind (gets (@requestCallbacksByRequestID PS)) _).
  assert (Hcl : forall s0 o0 s0' tr0, cl s0 = (o0, s0', tr0) ->
            lru_find (rq_RequestID request) (requestCallbacksByRequestID s0') = None)
    by (intros; eapply cleanup_unregisters; eassumption).
  clearbody cl.
  remember (sendMessage kr) as sm eqn:Hsm.
  remember (drainLoop kr (rq_RequestID request) polls) as dl eqn:Hdl.
  run. destruct (pairingSecret s) as [p|]; cbn; [|discriminate].
  destruct (MarshalRequest kr request) as [json|]; cbn; [|discriminate].
  destruct (sm json _) as [[[err| |] s1] t1]; cbn; try discriminate.
  destruct err as [[]|]; cbn; try discriminate;
    destruct (dl s1) as [[[[]| |] s2] t2]; cbn; try discriminate;
    destruct (cl s2) as [[o3 s3] t3] eqn:E3;
    intros H; injection H; intros; subst; exact (Hcl _ _ _ _ E3).
Qed.

Lemma sendMessage_hard_failure (message : bytes) (p : PS) (e : error)
    (s : EnclaveClient PS)
    (Hps : pairingSecret s = Some p)
    (Hfail : (EncryptMessage kr p message = inr e /\ is_ErrWaitingForKey e = false) \/
             (exists c, EncryptMessage kr p message = inl c /\
                        SendMessage kr p message = Some e)) :
  exists tr, sendMessage kr message s = (Done (Some (SendError e)), s, tr) /\
             chan_sends tr = 0.
Proof.
  unfold sendMessage. run. rewrite Hps. run.
  destruct Hfail as [[Henc Hw]|[c [Henc Hsend]]]; rewrite Henc; run.
  - rewrite Hw. eexists; split; reflexivity.
  - destruct (bt s); run; rewrite Hsend; eexists; split; reflexivity.
Qed.

(** When the request cannot be sent (encryption fails with anything other
    than [kr.ErrWaitingForKey], or the queue send fails), the worker returns
    that [SendError] at once: it never sends anything on [cb] and leaves
    the entry it registered for the request in the correlator. *)
Theorem worker_send_error_keeps_entry (request : Request) (cb : chan) (polls : list Poll)
    (p : PS) (json : bytes) (e : error) (s : EnclaveClient PS)
    (Hps : pairingSecret s = Some p)
    (Hjson : MarshalRequest kr request = Some json)
    (Hfail : (EncryptMessage kr p json = inr e /\ is_ErrWaitingForKey e = false) \/
             (exists c, EncryptMessage kr p json = inl c /\
                        SendMessage kr p json = Some e)) :
  exists s' tr,
    sendRequestAndReceiveResponses kr request cb polls s =
      (Done (Some (SendError e)), s', tr) /\
    lru_find (rq_RequestID request) (requestCallbacksByRequestID s') = Some cb /\
    chan_sends tr = 0.
Proof.
  set (s1 := set_callbacks (lru_add (rq_RequestID request) cb
                             (requestCallbacksByRequestID s)) s).
  destruct (sendMessage_hard_failure json p e s1 Hps Hfail) as [tr [Hsend Hch]].
  unfold sendRequestAndReceiveResponses, getPairingSecret.
  unfold bind at 1, gets at 1. rewrite Hps, Hjson.
  unfold bind at 1, modify at 1. fold s1. unfold bind at 1. rewrite Hsend.
  cbn. exists s1, tr. split; [rewrite app_nil_r; reflexivity|].
  split; [apply lru_add_find|exact Hch].
Qed.

Lemma nodupb_NoDup (l : list string) : nodupb l = true -> NoDup l.
Proof.
  induction l as [|x r IH]; cbn; intros H; [constructor|].
  apply andb_true_iff in H as [Hx Hr]. constructor; [|apply IH, Hr].
  intros Hin. apply negb_true_iff in Hx.
  assert (existsb (String.eqb x) r = true) by
    (apply existsb_exists; exists x; split; [exact Hin|apply String.eqb_refl]).
  congruence.
Qed.

Ltac in_list := repeat first [left; reflexivity | right].
Ltac uuids :=
  repeat match goal with
         | |- context [DeriveUUID ?k ?x] => destruct (DeriveUUID k x); run
         end.

(** A successful [Pair] returns the new secret and installs it, forgets
    the cached profile, empties the outgoing queue, deletes the old
    persisted pairing and saves the new one; the correlator is untouched. *)
Theorem Pair_success (p' : PS) (s : EnclaveClient PS) :
  exists s' tr,
    Pair kr (inl p') s = (Done p', s', tr) /\
    pairingSecret s' = Some p' /\ cachedMe s' = None /\ outgoingQueue s' = [] /\
    requestCallbacksByRequestID s' = requestCallbacksByRequestID s /\
    In EvDeletePairing tr /\ In (EvSavePairing p') tr.
Proof.
  unfold Pair, generatePairing, deactivatePairing, activatePairing.
  destruct s as [ps0 cbs0 q0 arn0 me0 bt0]. run.
  destruct bt0 as [d|]; destruct ps0 as [old|]; run; uuids;
    do 2 eexists; (split; [reflexivity|]); cbn;
    repeat split; in_list.
Qed.

(** With a Bluetooth driver and an old secret, [Pair] removes the old
    Bluetooth service twice ([Pair] and [generatePairing] both deactivate
    the old pairing) before it deletes the old pairing, saves the new one
    and adds the new service. *)
Theorem Pair_bluetooth_sequence (p_old p' : PS) (u u' : string) (d : BluetoothDriver)
    (s : EnclaveClient PS)
    (Hbt : bt s = Some d) (Hps : pairingSecret s = Some p_old)
    (Hu : DeriveUUID kr p_old = inl u) (Hu' : DeriveUUID kr p' = inl u') :
  exists s',
    Pair kr (inl p') s =
      (Done p', s',
       [EvBtRemoveService u; EvBtRemoveService u; EvDeletePairing; EvSavePairing p';
        EvBtAddService u']).
Proof.
  unfold Pair, generatePairing, deactivatePairing, activatePairing.
  destruct s as [ps0 cbs0 q0 arn0 me0 bt0]. cbn in Hps, Hbt. subst ps0 bt0. run.
  repeat (first [rewrite Hu | rewrite Hu']; run). eexists. reflexivity.
Qed.

(** When generating the new pairing fails, [Pair] still deletes the
    persisted pairing and forgets the cached profile, saves nothing, and
    returns the old secret, which stays installed in memory. *)
Theorem Pair_failure_keeps_old_secret (p_old : PS) (e : error) (s : EnclaveClient PS)
    (Hps : pairingSecret s = Some p_old) :
  exists s' tr,
    Pair kr (inr e) s = (Done p_old, s', tr) /\
    pairingSecret s' = Some p_old /\ cachedMe s' = None /\
    In EvDeletePairing tr /\ (forall q, ~ In (EvSavePairing q) tr).
Proof.
  unfold Pair, generatePairing, deactivatePairing, activatePairing.
  destruct s as [ps0 cbs0 q0 arn0 me0 bt0]. cbn in Hps. subst ps0. run.
  destruct bt0 as [d|]; run; uuids;
    do 2 eexists; (split; [reflexivity|]); cbn;
    (split; [reflexivity|]); (split; [reflexivity|]);
    (split; [in_list|]); intros q Hq;
    repeat (destruct Hq as [Hq|Hq]; [discriminate|]); exact Hq.
Qed.

(** [Start] with no loaded pairing on a client that has none makes no
    request: it only installs the Bluetooth driver it got (and starts its
    reader) and returns [nil]; when the driver fails it changes nothing and
    returns the driver's error. *)
Theorem Start_unpaired_no_request (btDriver : BluetoothDriver + error)
    (newRequest : Request + error) (cb : chan) (t_deliver : N) (polls : list Poll)
    (s : EnclaveClient PS)
    (Hps : pairingSecret s = None) :
  Start kr None btDriver newRequest cb t_deliver polls s =
    match btDriver with
    | inl d => (Done None, set_bt (Some d) s, [EvBtReaderStarted])
    | inr e => (Done (Some e), s, [])
    end.
Proof.
  unfold Start, activatePairing.
  destruct s as [ps0 cbs0 q0 arn0 me0 bt0]. cbn in Hps. subst ps0.
  destruct btDriver as [d|e]; run; destruct bt0; reflexivity.
Qed.



End Extras.

(** * Witnesses and counterexamples on the concrete scenario *)
Import Scenario.

(** C1 as claimed fails: unpaired, [RequestMe] returns only after its
    20 s timeout, with [ErrTimeout] rather than an unpaired error. *)
Lemma request_unpaired_not_immediate :
  fst (fst (RequestMe kr (inl request_r1) 1 5%N [] (@UnpairedEnclaveClient nat))) =
    Done (None, Some ErrTimeout, 20000%N).
Proof. vm_compute. reflexivity. Qed.

Lemma request_unpaired_waits_for_timeout_witness :
  pairingSecret (@UnpairedEnclaveClient nat) = None /\
  RequestMe kr (inl request_r1) 1 5%N [] UnpairedEnclaveClient =
    (Done (None, Some ErrTimeout, 20000%N), UnpairedEnclaveClient, []) /\
  RequestSignature kr sign_request (inl request_r1) 1 5%N [] UnpairedEnclaveClient =
    (Done (None, Some ErrTimeout, 15000%N), UnpairedEnclaveClient, []) /\
  RequestList kr list_request (inl request_r1) 1 5%N [] UnpairedEnclaveClient =
    (Done (None, Some ErrTimeout, 5000%N), UnpairedEnclaveClient, []).
Proof.
  split; [reflexivity|].
  exact (request_unpaired_waits_for_timeout kr request_r1 sign_request list_request
           1 5%N [] UnpairedEnclaveClient eq_refl).
Defined.

(** C2 as claimed fails: a receive error makes the worker send the
    sentinel at once, and [RequestMe] returns no payload and no error. *)
Lemma request_sentinel_reported_as_success :
  worker_delivers_first kr (with_MeRequest request_r1) 1 [recv_failure] paired None /\
  fst (fst (RequestMe kr (inl request_r1) 1 3%N [recv_failure] paired)) =
    Done (None, None, 3%N).
Proof. vm_compute. split; [split; [discriminate | reflexivity] | reflexivity]. Qed.

Lemma request_sentinel_returns_no_payload_no_error_witness :
  worker_delivers_first kr (with_MeRequest request_r1) 1 [recv_failure] paired None /\
  (3 < 20000)%N /\
  exists s' tr, RequestMe kr (inl request_r1) 1 3%N [recv_failure] paired =
                (Done (None, None, 3%N), s', tr).
Proof.
  assert (Hw : worker_delivers_first kr (with_MeRequest request_r1) 1 [recv_failure]
                 paired None)
    by (vm_compute; split; [discriminate | reflexivity]).
  split; [exact Hw|]. split; [reflexivity|].
  apply (proj1 (request_sentinel_returns_no_payload_no_error kr request_r1 sign_request
                  list_request 1 3%N [recv_failure] paired)); [exact Hw | reflexivity].
Defined.

Lemma sendMessage_without_bt_dereferences_nil_witness :
  pairingSecret paired_no_bt = Some 1 /\ bt paired_no_bt = None /\
  snd (sendMessage kr [x05] paired_no_bt) = [EvNilDeref "client.bt"; EvQueueSend [x05]].
Proof.
  split; [reflexivity|]. split; [reflexivity|].
  exact (sendMessage_without_bt_dereferences_nil kr [x05] [x7f; x05] 1 paired_no_bt
           eq_refl eq_refl eq_refl).
Defined.

(** Whether a corrupt ciphertext fails the request depends on where it
    sits in its batch: first, it is overwritten and the answer in the next
    poll is delivered; last, the waiter gets the sentinel. *)
Lemma drain_error_position_scenario :
  worker_delivers_first kr request_r1 1 [error_first_batch; answer_batch] paired
    (Some response_r1) /\
  worker_delivers_first kr request_r1 1 [error_last_batch; answer_batch] paired None.
Proof. vm_compute. split; (split; [discriminate | reflexivity]). Qed.

Lemma drain_error_position_decides_witness :
  fst (fst (receive kr {| poll_ReadQueue := inl ([[x00]] ++ [[x04]]);
                          poll_deadline_passed := false |} waiting_r1)) = Done (0, None) /\
  fst (fst (receive kr {| poll_ReadQueue := inl ([[x04]] ++ [[x00]]);
                          poll_deadline_passed := false |} waiting_r1)) =
    Done (0, Some (ErrExternal "decrypt")) /\
  worker_delivers_first kr request_r1 1 [error_last_batch; answer_batch] paired None.
Proof.
  pose proof (drain_error_position_decides kr) as [_ [HB HD]].
  split; [|split].
  - pose (R1 := receiveCiphertexts kr [[x00]] None waiting_r1).
    pose (R2 := handleCiphertext kr [x04] (snd (fst R1))).
    exact (f_equal (fun R => fst (fst R))
             (HB [[x00]] [x04] false (Some (ErrExternal "decrypt")) None waiting_r1
                 (snd (fst R1)) (snd (fst R2)) (snd R1) (snd R2)
                 ltac:(vm_compute; reflexivity) ltac:(vm_compute; reflexivity))).
  - pose (R1 := receiveCiphertexts kr [[x04]] None waiting_r1).
    pose (R2 := handleCiphertext kr [x00] (snd (fst R1))).
    exact (f_equal (fun R => fst (fst R))
             (HB [[x04]] [x00] false None (Some (ErrExternal "decrypt")) waiting_r1
                 (snd (fst R1)) (snd (fst R2)) (snd R1) (snd R2)
                 ltac:(vm_compute; reflexivity) ltac:(vm_compute; reflexivity))).
  - pose (S := set_callbacks (lru_add "r1" 1 (requestCallbacksByRequestID paired)) paired).
    pose (RS := sendMessage kr [x02] S).
    pose (RR := receive kr error_last_batch (snd (fst RS))).
    apply (HD request_r1 1 1 [x02] error_last_batch [answer_batch] paired None
             (snd (fst RS)) (snd RS) 0 (ErrExternal "decrypt") (snd (fst RR)) (snd RR));
      [reflexivity | reflexivity | vm_compute; reflexivity | left; reflexivity
      | vm_compute; reflexivity | vm_compute; reflexivity | vm_compute; reflexivity].
Defined.

(** The key arrives with a response attached; of the three queued
    messages the middle one fails its cloud send, and the third is still
    sent. *)
Lemma handleCiphertext_key_unwrap_flushes_queue_witness :
  pairingSecret key_pending = Some 0 /\
  UnwrapKeyIfPresent kr 0 [xff; x03] = (1, Some [x03], true, None) /\
  let '(o1, s1, t1) := sendEach kr (outgoingQueue key_pending) (flushed 1 key_pending) in
  o1 = Done tt /\
  t1 = resend_trace kr 1 (bt key_pending) (outgoingQueue key_pending) /\
  pairingSecret s1 = Some 1 /\
  incl (outgoingQueue s1) (outgoingQueue key_pending) /\
  (exists rest, snd (handleCiphertext kr [xff; x03] key_pending) =
     EvUnwrapCall (Some 0) :: EvSavePairing 1 :: t1 ++ rest) /\
  (Some [x03] = None -> exists err, handleCiphertext kr [xff; x03] key_pending =
     (Done err, s1, EvUnwrapCall (Some 0) :: EvSavePairing 1 :: t1)).
Proof.
  split; [reflexivity|]. split; [reflexivity|].
  exact (handleCiphertext_key_unwrap_flushes_queue kr [xff; x03] key_pending 0 1 (Some [x03])
           eq_refl eq_refl).
Defined.

Lemma sendMessage_waiting_for_key_queues_witness :
  EncryptMessage kr 0 [x08] = inr ErrWaitingForKey /\
  (exists s',
     sendMessage kr [x08] key_pending = (Done (Some (SendQueued ErrWaitingForKey)), s', []) /\
     outgoingQueue s' = [[x05]; [x09]; [x06]; [x08]] /\
     pairingSecret s' = Some 0 /\ requestCallbacksByRequestID s' = []) /\
  (forall m o s' tr, sendMessage kr m key_pending = (o, s', tr) ->
     List.length (outgoingQueue s') <= 128).
Proof.
  split; [reflexivity|].
  apply (sendMessage_waiting_for_key_queues kr [x08] key_pending 0 ErrWaitingForKey);
    cbn; try reflexivity; lia.
Defined.

Lemma handleMessage_delivery_idempotent_witness :
  UnmarshalResponse kr [x03] = Some response_r1 /\
  (lru_find "r1" [("r1", 1)] = None ->
   exists s' tr,
     handleMessage kr [x03] waiting_r1 = (Done None, s', tr) /\
     requestCallbacksByRequestID s' = [("r1", 1)] /\
     outgoingQueue s' = [] /\ chan_sends tr = 0) /\
  (exists s1 tr1,
     handleMessage kr [x03] waiting_r1 = (Done None, s1, tr1) /\
     chan_sends tr1 <= 1 /\
     (forall ch v, In (EvChanSend ch v) tr1 -> lru_find "r1" [("r1", 1)] = Some ch /\
        v = Some response_r1) /\
     lru_find "r1" (requestCallbacksByRequestID s1) = None /\
     (NoDup (map fst [("r1", 1)]) -> NoDup (map fst (requestCallbacksByRequestID s1))) /\
     (forall message2 response2,
        UnmarshalResponse kr message2 = Some response2 ->
        rs_RequestID response2 = "r1" ->
        exists s2 tr2,
          handleMessage kr message2 s1 = (Done None, s2, tr2) /\
          chan_sends tr2 = 0 /\
          requestCallbacksByRequestID s2 = requestCallbacksByRequestID s1)) /\
  (forall k v c, NoDup (map fst c) -> NoDup (map fst (lru_add k v c))).
Proof.
  split; [reflexivity|].
  exact (handleMessage_delivery_idempotent kr [x03] response_r1 waiting_r1 eq_refl).
Defined.

Lemma handleMessage_applies_SNSEndpointARN_witness :
  UnmarshalResponse kr [x04] = Some response_arn /\
  exists s' tr,
    handleMessage kr [x04] waiting_r1 = (Done None, s', tr) /\
    pairingSecret s' = Some 11 /\ In (EvSavePairing 11) tr.
Proof.
  split; [reflexivity|].
  exact (handleMessage_applies_SNSEndpointARN kr [x04] response_arn
           "arn:aws:sns:endpoint/r2" 1 waiting_r1 eq_refl eq_refl eq_refl).
Defined.

Lemma handleCiphertext_calls_unwrap_on_nil_secret_witness :
  pairingSecret (@UnpairedEnclaveClient nat) = None /\
  (exists tr, snd (handleCiphertext kr [x03] UnpairedEnclaveClient) = EvUnwrapCall None :: tr) /\
  fst (fst (handleCiphertext kr [x03] UnpairedEnclaveClient)) = Panicked.
Proof.
  split; [reflexivity|].
  exact (handleCiphertext_calls_unwrap_on_nil_secret kr [x03] UnpairedEnclaveClient eq_refl).
Defined.

Lemma Pair_generation_failure_panics_witness :
  pairingSecret (@UnpairedEnclaveClient nat) = None /\
  fst (fst (Pair kr (inr (ErrExternal "queue creation")) UnpairedEnclaveClient)) = Panicked.
Proof.
  split; [reflexivity|].
  exact (Pair_generation_failure_panics kr (ErrExternal "queue creation")
           UnpairedEnclaveClient eq_refl).
Defined.

Lemma worker_preserves_queue_bound_witness :
  List.length (outgoingQueue key_pending) <= 128 /\
  List.length (outgoingQueue
    (snd (fst (sendRequestAndReceiveResponses kr request_r1 1 [answer_batch] key_pending))))
    <= 128.
Proof.
  split; [cbn; lia|].
  apply (worker_preserves_queue_bound kr request_r1 1 [answer_batch] key_pending
           (fst (fst (sendRequestAndReceiveResponses kr request_r1 1 [answer_batch] key_pending)))
           _
           (snd (sendRequestAndReceiveResponses kr request_r1 1 [answer_batch] key_pending)));
    [cbn; lia|vm_compute; reflexivity].
Defined.

Lemma handleCiphertext_never_adds_callbacks_witness :
  NoDup (map fst (requestCallbacksByRequestID waiting_r1)) /\
  NoDup (map fst (requestCallbacksByRequestID
                    (snd (fst (handleCiphertext kr [x03] waiting_r1))))) /\
  incl (requestCallbacksByRequestID (snd (fst (handleCiphertext kr [x03] waiting_r1))))
       (requestCallbacksByRequestID waiting_r1).
Proof.
  split; [apply nodupb_NoDup; vm_compute; reflexivity|].
  apply (handleCiphertext_never_adds_callbacks kr [x03] waiting_r1
           (fst (fst (handleCiphertext kr [x03] waiting_r1))) _
           (snd (handleCiphertext kr [x03] waiting_r1)));
    [apply nodupb_NoDup; vm_compute; reflexivity|vm_compute; reflexivity].
Defined.

Lemma worker_callbacks_within_witness :
  NoDup (map fst (requestCallbacksByRequestID waiting_r1)) /\
  NoDup (map fst (requestCallbacksByRequestID
    (snd (fst (sendRequestAndReceiveResponses kr request_r2 2 [late_other_batch]
                 waiting_r1))))) /\
  incl (requestCallbacksByRequestID
          (snd (fst (sendRequestAndReceiveResponses kr request_r2 2 [late_other_batch]
                       waiting_r1))))
       (("r2", 2) :: requestCallbacksByRequestID waiting_r1).
Proof.
  split; [apply nodupb_NoDup; vm_compute; reflexivity|].
  apply (worker_callbacks_within kr request_r2 2 [late_other_batch] waiting_r1
    (fst (fst (sendRequestAndReceiveResponses kr request_r2 2 [late_other_batch]
                 waiting_r1))) _
    (snd (sendRequestAndReceiveResponses kr request_r2 2 [late_other_batch]
            waiting_r1)));
    [apply nodupb_NoDup; vm_compute; reflexivity|vm_compute; reflexivity].
Defined.

Lemma lru_add_bounded_witness :
  List.length full_cache <= lru_MaxEntries /\
  List.length (lru_add "new" 200 full_cache) <= lru_MaxEntries.
Proof.
  split; [vm_compute; lia|].
  apply (lru_add_bounded "new" 200 full_cache). vm_compute. lia.
Defined.

Lemma lru_add_evicts_oldest_witness :
  NoDup (map fst full_cache) /\ List.length full_cache = lru_MaxEntries /\
  lru_find "new" full_cache = None /\
  lru_add "new" 200 full_cache = ("new", 200) :: removelast full_cache /\
  lru_find (fst (last full_cache ("new", 200))) (lru_add "new" 200 full_cache) = None /\
  List.length (lru_add "new" 200 full_cache) = lru_MaxEntries.
Proof.
  split; [apply nodupb_NoDup; vm_compute; reflexivity|].
  split; [vm_compute; reflexivity|].
  split; [vm_compute; reflexivity|].
  apply (lru_add_evicts_oldest "new" 200 full_cache);
    [apply nodupb_NoDup; vm_compute; reflexivity
    |vm_compute; reflexivity|vm_compute; reflexivity].
Defined.

Lemma handleCiphertext_no_unwrap_sends_nothing_witness :
  pairingSecret key_pending = Some 0 /\
  UnwrapKeyIfPresent kr 0 [x03] = (0, Some [x03], false, None) /\
  outgoingQueue (snd (fst (handleCiphertext kr [x03] key_pending))) =
    outgoingQueue key_pending /\
  (forall m, ~ In (EvQueueSend m) (snd (handleCiphertext kr [x03] key_pending))) /\
  (forall c, ~ In (EvBtWrite c) (snd (handleCiphertext kr [x03] key_pending))).
Proof.
  split; [reflexivity|]. split; [reflexivity|].
  apply (handleCiphertext_no_unwrap_sends_nothing kr [x03] 0 0 (Some [x03]) None
           key_pending (fst (fst (handleCiphertext kr [x03] key_pending))) _
           (snd (handleCiphertext kr [x03] key_pending)));
    vm_compute; reflexivity.
Defined.

Lemma drainLoop_stops_at_deadline_witness :
  poll_deadline_passed late_other_batch = true /\
  drainLoop kr "r1" (late_other_batch :: [answer_batch]) waiting_r1 =
    drainLoop kr "r1" (late_other_batch :: []) waiting_r1.
Proof.
  split; [reflexivity|].
  exact (drainLoop_stops_at_deadline kr "r1" late_other_batch [answer_batch] []
           waiting_r1 eq_refl).
Defined.

Lemma worker_done_unregisters_witness :
  sendRequestAndReceiveResponses kr request_r1 1 [answer_batch] paired =
    (Done None,
     snd (fst (sendRequestAndReceiveResponses kr request_r1 1 [answer_batch] paired)),
     snd (sendRequestAndReceiveResponses kr request_r1 1 [answer_batch] paired)) /\
  lru_find "r1" (requestCallbacksByRequestID
    (snd (fst (sendRequestAndReceiveResponses kr request_r1 1 [answer_batch] paired)))) =
    None.
Proof.
  split; [vm_compute; reflexivity|].
  apply (worker_done_unregisters kr request_r1 1 [answer_batch] paired _
           (snd (sendRequestAndReceiveResponses kr request_r1 1 [answer_batch] paired))).
  vm_compute. reflexivity.
Defined.

Lemma worker_send_error_keeps_entry_witness :
  pairingSecret paired = Some 1 /\ MarshalRequest kr_offline request_r1 = Some [x02] /\
  EncryptMessage kr_offline 1 [x02] = inl [x7f; x02] /\
  SendMessage kr_offline 1 [x02] = Some (ErrExternal "sqs") /\
  exists s' tr,
    sendRequestAndReceiveResponses kr_offline request_r1 1 [answer_batch] paired =
      (Done (Some (SendError (ErrExternal "sqs"))), s', tr) /\
    lru_find "r1" (requestCallbacksByRequestID s') = Some 1 /\
    chan_sends tr = 0.
Proof.
  split; [reflexivity|]. split; [reflexivity|]. split; [reflexivity|].
  split; [reflexivity|].
  apply (worker_send_error_keeps_entry kr_offline request_r1 1 [answer_batch] 1 [x02]
           (ErrExternal "sqs") paired eq_refl eq_refl).
  right. exists [x7f; x02]. split; reflexivity.
Defined.

Lemma Pair_bluetooth_sequence_witness :
  bt paired = Some BluetoothDriverHandle /\ pairingSecret paired = Some 1 /\
  DeriveUUID kr 1 = inl "bt-uuid" /\ DeriveUUID kr 2 = inl "bt-uuid" /\
  exists s',
    Pair kr (inl 2) paired =
      (Done 2, s',
       [EvBtRemoveService "bt-uuid"; EvBtRemoveService "bt-uuid"; EvDeletePairing;
        EvSavePairing 2; EvBtAddService "bt-uuid"]).
Proof.
  split; [reflexivity|]. split; [reflexivity|]. split; [reflexivity|].
  split; [reflexivity|].
  exact (Pair_bluetooth_sequence kr 1 2 "bt-uuid" "bt-uuid" BluetoothDriverHandle paired
           eq_refl eq_refl eq_refl eq_refl).
Defined.

Lemma Pair_failure_keeps_old_secret_witness :
  pairingSecret paired = Some 1 /\
  exists s' tr,
    Pair kr (inr (ErrExternal "queue creation")) paired = (Done 1, s', tr) /\
    pairingSecret s' = Some 1 /\ cachedMe s' = None /\
    In EvDeletePairing tr /\ (forall q, ~ In (EvSavePairing q) tr).
Proof.
  split; [reflexivity|].
  exact (Pair_failure_keeps_old_secret kr 1 (ErrExternal "queue creation") paired eq_refl).
Defined.

Lemma Start_unpaired_no_request_witness :
  pairingSecret (@UnpairedEnclaveClient nat) = None /\
  Start kr None (inr (ErrExternal "no bluetooth")) (inl request_r1) 1 5 [answer_batch]
    UnpairedEnclaveClient =
    (Done (Some (ErrExternal "no bluetooth")), UnpairedEnclaveClient, []).
Proof.
  split; [reflexivity|].
  exact (Start_unpaired_no_request kr (inr (ErrExternal "no bluetooth")) (inl request_r1) 1 5
           [answer_batch] UnpairedEnclaveClient eq_refl).
Defined.


